(** * Bloom taste finder: signal collection, signal merging, classification
      and catalog search, embedded from the TypeScript sources.

    Conventions of the embedding.
    - A JavaScript [number] that carries a score or a weight is an exact
      rational ([Q]); counts and lengths are integers.  Rounding error of
      IEEE doubles is therefore outside the model.
    - A JavaScript string is a [string] of bytes; case folding is the ASCII
      one, which is what a non-unicode [/i] regular expression does on the
      ASCII patterns used here.
    - An optional field [f?: T] is an [option T].
    - A [Map] or a [Set], whose iteration order is the insertion order, is an
      association list or a list without repetition kept in that order.
    - A call that may throw returns an [Outcome]; an [await] is the call
      itself.  Console output is left out. *)

From Stdlib Require Import List String Ascii Bool Arith ZArith QArith Qround
  Qminmax Lia Lqa Permutation DecimalString.
Import ListNotations.

Local Open Scope string_scope.
Local Open Scope list_scope.

(** ** JavaScript primitives *)

Module Js.

(** The result of a call that may throw. *)
Inductive Outcome (A : Type) : Type :=
| Returned (a : A)
| Thrown (message : string).
Arguments Returned {A} a.
Arguments Thrown {A} message.

Definition bind {A B} (m : Outcome A) (k : A -> Outcome B) : Outcome B :=
  match m with
  | Returned a => k a
  | Thrown e => Thrown e
  end.

(** [try { body } catch (error) { handler }] *)
Definition try_catch {A} (body : Outcome A) (handler : string -> Outcome A)
  : Outcome A :=
  match body with
  | Returned a => Returned a
  | Thrown e => handler e
  end.

(** A string is truthy when it is not empty. *)
Definition truthy_string (s : string) : bool :=
  match s with
  | EmptyString => false
  | String _ _ => true
  end.

(** [a.length] as an integer. *)
Definition len {A} (l : list A) : Z := Z.of_nat (List.length l).

(** [arr.slice(0, n)] and [arr.slice(n)]. *)
Definition slice_to {A} (n : nat) (l : list A) : list A := firstn n l.
Definition slice_from {A} (n : nat) (l : list A) : list A := skipn n l.

(** Strict comparison of two numbers. *)
Definition Qltb (x y : Q) : bool := negb (Qle_bool y x).

(** [Math.round]: the nearest integer, halves rounded up. *)
Definition Math_round (x : Q) : Z := Qfloor (x + (1 # 2)).

(** The decimal text of an integer inside a template string. *)
Definition number_text (z : Z) : string :=
  NilZero.string_of_int (Z.to_int z).

(** [arr.sort((a, b) => score(b) - score(a))]: descending by score.
    [Array.prototype.sort] is stable, so entries of equal score keep their
    order; on a comparator of this shape every stable sort gives the same
    array, here an insertion sort. *)
Fixpoint insert_desc {A} (score : A -> Q) (x : A) (l : list A) : list A :=
  match l with
  | [] => [x]
  | y :: l' =>
      if Qltb (score x) (score y) then y :: insert_desc score x l'
      else x :: l
  end.

Definition sort_desc {A} (score : A -> Q) (l : list A) : list A :=
  fold_right (insert_desc score) [] l.

(** The entries of a list are in descending order when no entry is
    followed immediately by a larger one. *)
Inductive descending {A} (score : A -> Q) : list A -> Prop :=
| descending_nil : descending score []
| descending_one x : descending score [x]
| descending_cons x y l :
    score y <= score x -> descending score (y :: l) ->
    descending score (x :: y :: l).

End Js.
Import Js.

Notation "x <- m ;; k" := (Js.bind m (fun x => k))
  (at level 61, m at next level, right associativity).

(** ** Signal collector (data-collector-enhanced.ts, first part) *)

Module Collector.

Record Tweet := {
  text : string;
  tweet_likes : option Z;
  tweet_retweets : option Z;
  tweet_timestamp : option Z
}.

Record Interactions := {
  likes : list string;
  retweets : list string;
  replies : list string
}.

Record TwitterData := {
  bio : string;
  following : list string;
  tweets : list Tweet;
  interactions : Interactions
}.

Record Token := {
  symbol : string;
  token_name : string;
  balance : string;
  token_value : option Q
}.

Record Nft := {
  collection : string;
  nft_name : string;
  tokenId : string;
  image : option string
}.

Record Transaction := {
  hash : string;
  to : string;
  tx_value : string;
  tx_timestamp : Z;
  method : option string
}.

Record WalletData := {
  address : string;
  tokens : list Token;
  nfts : list Nft;
  transactions : list Transaction;
  contracts : list string;
  defiProtocols : list string
}.

Record Cast := { cast_text : string; cast_timestamp : Z }.

Record FarcasterData := {
  fc_bio : string;
  channels : list string;
  casts : list Cast;
  fc_following : list string
}.

Record ConversationMemory := {
  topics : list string;
  interests : list string;
  preferences : list string;
  history : list string;
  messageCount : Z
}.

Inductive Quality := real | none.

Definition Quality_eqb (a b : Quality) : bool :=
  match a, b with
  | real, real | none, none => true
  | _, _ => false
  end.

Record Permissions := { p_twitter : bool; p_conversation : bool }.
Record DataQuality := { q_twitter : Quality; q_conversation : Quality }.

Record UserData := {
  sources : list string;
  permissions : Permissions;
  dataQuality : DataQuality;
  twitter : option TwitterData;
  conversationMemory : option ConversationMemory;
  wallet : option WalletData;
  farcaster : option FarcasterData
}.

(** Field assignments on the mutable [userData] object. *)
Definition push_source (s : string) (u : UserData) : UserData :=
  {| sources := sources u ++ [s]; permissions := permissions u;
     dataQuality := dataQuality u; twitter := twitter u;
     conversationMemory := conversationMemory u; wallet := wallet u;
     farcaster := farcaster u |}.

Definition set_permissions (p : Permissions) (u : UserData) : UserData :=
  {| sources := sources u; permissions := p;
     dataQuality := dataQuality u; twitter := twitter u;
     conversationMemory := conversationMemory u; wallet := wallet u;
     farcaster := farcaster u |}.

Definition set_dataQuality (q : DataQuality) (u : UserData) : UserData :=
  {| sources := sources u; permissions := permissions u;
     dataQuality := q; twitter := twitter u;
     conversationMemory := conversationMemory u; wallet := wallet u;
     farcaster := farcaster u |}.

Definition set_permission_twitter (b : bool) (u : UserData) : UserData :=
  set_permissions {| p_twitter := b;
                     p_conversation := p_conversation (permissions u) |} u.

Definition set_permission_conversation (b : bool) (u : UserData) : UserData :=
  set_permissions {| p_twitter := p_twitter (permissions u);
                     p_conversation := b |} u.

Definition set_quality_twitter (q : Quality) (u : UserData) : UserData :=
  set_dataQuality {| q_twitter := q;
                     q_conversation := q_conversation (dataQuality u) |} u.

Definition set_quality_conversation (q : Quality) (u : UserData) : UserData :=
  set_dataQuality {| q_twitter := q_twitter (dataQuality u);
                     q_conversation := q |} u.

Definition set_twitter (t : TwitterData) (u : UserData) : UserData :=
  {| sources := sources u; permissions := permissions u;
     dataQuality := dataQuality u; twitter := Some t;
     conversationMemory := conversationMemory u; wallet := wallet u;
     farcaster := farcaster u |}.

Definition set_conversationMemory (c : ConversationMemory) (u : UserData)
  : UserData :=
  {| sources := sources u; permissions := permissions u;
     dataQuality := dataQuality u; twitter := twitter u;
     conversationMemory := Some c; wallet := wallet u;
     farcaster := farcaster u |}.

Definition set_wallet (w : WalletData) (u : UserData) : UserData :=
  {| sources := sources u; permissions := permissions u;
     dataQuality := dataQuality u; twitter := twitter u;
     conversationMemory := conversationMemory u; wallet := Some w;
     farcaster := farcaster u |}.

(** *** The collaborators the collector calls

    The session reader, the bird CLI wrapper and the wallet storage are
    imported modules; each call either returns or throws. *)

Record SessionAnalysis := {
  a_topics : list string;
  a_interests : list string;
  a_preferences : list string;
  a_history : list string;
  a_messageCount : Z
}.

Record TwitterProfile := { profile_bio : string; profile_tweets : list Tweet }.
Record FollowingData := { handles : option (list string) }.
Record WalletRecord := { walletAddress : string }.

Record Integrations := {
  readSessionHistory : string -> Outcome SessionAnalysis;
  fetchTwitterProfile : string -> Outcome (option TwitterProfile);
  fetchTwitterFollowing : string -> Z -> Outcome (option FollowingData);
  analyzeInteractions : list Tweet -> Outcome Interactions;
  getUserWallet : string -> Outcome (option WalletRecord)
}.

Record CollectOptions := {
  skipTwitter : option bool;
  includeWallet : option bool
}.

(** [options?.flag] used as a condition. *)
Definition flag (options : option CollectOptions)
  (f : CollectOptions -> option bool) : bool :=
  match options with
  | Some o => match f o with Some b => b | None => false end
  | None => false
  end.

Section WithIntegrations.

Variable env : Integrations.

Definition checkTwitterPermission (userId : string) : Outcome bool :=
  Returned true.

Definition emptyTwitterData : TwitterData :=
  {| bio := EmptyString; following := []; tweets := [];
     interactions := {| likes := []; retweets := []; replies := [] |} |}.

Definition collectTwitterData (userId : string) : Outcome TwitterData :=
  try_catch
    (profile <- fetchTwitterProfile env userId ;;
     match profile with
     | None => Returned emptyTwitterData
     | Some profile =>
         followingData <- fetchTwitterFollowing env userId 100 ;;
         let following :=
           match followingData with
           | Some fd => match handles fd with Some h => h | None => [] end
           | None => []
           end in
         interactions <- analyzeInteractions env (profile_tweets profile) ;;
         Returned {| bio := profile_bio profile;
                     following := following;
                     tweets := profile_tweets profile;
                     interactions := interactions |}
     end)
    (fun _ => Returned emptyTwitterData).

Definition emptyWalletData (addr : string) : WalletData :=
  {| address := addr; tokens := []; nfts := []; transactions := [];
     contracts := []; defiProtocols := [] |}.

Definition collectWalletData (userId : string) : Outcome WalletData :=
  try_catch
    (walletRecord <- getUserWallet env userId ;;
     match walletRecord with
     | None => Returned (emptyWalletData EmptyString)
     | Some r => Returned (emptyWalletData (walletAddress r))
     end)
    (fun _ => Returned (emptyWalletData EmptyString)).

Definition emptyConversationMemory : ConversationMemory :=
  {| topics := []; interests := []; preferences := []; history := [];
     messageCount := 0 |}.

Definition insufficient_message (n : Z) : string :=
  ("Insufficient conversation data: " ++ number_text n ++
   " messages found (minimum 3 required). " ++
   "Please continue chatting with OpenClaw to build conversation history."
  )%string.

(** The [throw] for fewer than three messages sits inside the [try]
    whose [catch] returns the empty memory. *)
Definition collectConversationMemory (userId : string)
  : Outcome ConversationMemory :=
  try_catch
    (analysis <- readSessionHistory env userId ;;
     if (a_messageCount analysis <? 3)%Z
     then Thrown (insufficient_message (a_messageCount analysis))
     else Returned {| topics := a_topics analysis;
                      interests := a_interests analysis;
                      preferences := a_preferences analysis;
                      history := a_history analysis;
                      messageCount := a_messageCount analysis |})
    (fun _ => Returned emptyConversationMemory).

Definition initialUserData : UserData :=
  {| sources := [];
     permissions := {| p_twitter := false; p_conversation := false |};
     dataQuality := {| q_twitter := none; q_conversation := none |};
     twitter := None; conversationMemory := None; wallet := None;
     farcaster := None |}.

(** Step 1 of [collect]: the conversation memory. *)
Definition collect_conversation (userId : string) (u : UserData) : UserData :=
  match collectConversationMemory userId with
  | Returned cm =>
      set_quality_conversation real
        (set_permission_conversation true
           (push_source "Conversation" (set_conversationMemory cm u)))
  | Thrown _ => set_quality_conversation none u
  end.

(** Step 2 of [collect]: Twitter, unless skipped. *)
Definition collect_twitter (userId : string)
  (options : option CollectOptions) (u : UserData) : UserData :=
  if negb (flag options skipTwitter) then
    match checkTwitterPermission userId with
    | Thrown _ => set_quality_twitter none u
    | Returned hasPermission =>
        let u := set_permission_twitter hasPermission u in
        if hasPermission then
          match collectTwitterData userId with
          | Thrown _ => set_quality_twitter none u
          | Returned t =>
              let u := set_twitter t u in
              if truthy_string (bio t) || (0 <? len (tweets t))%Z
              then set_quality_twitter real (push_source "Twitter" u)
              else set_quality_twitter none u
          end
        else set_quality_twitter none u
    end
  else u.

(** Step 3 of [collect]: the wallet, only on request. *)
Definition collect_wallet (userId : string)
  (options : option CollectOptions) (u : UserData) : UserData :=
  if flag options includeWallet then
    match collectWalletData userId with
    | Returned w => push_source "Wallet" (set_wallet w u)
    | Thrown _ => u
    end
  else u.

Definition collect (userId : string) (options : option CollectOptions)
  : Outcome UserData :=
  let userData := initialUserData in
  let userData := collect_conversation userId userData in
  let userData := collect_twitter userId options userData in
  let userData := collect_wallet userId options userData in
  Returned userData.

End WithIntegrations.

Definition hasSufficientData (userData : UserData) : bool :=
  match conversationMemory userData with
  | None => false
  | Some cm => if (messageCount cm <? 3)%Z then false else true
  end.

Definition getDataQualityScore (userData : UserData) : Z :=
  let score := 0%Z in
  let score :=
    match conversationMemory userData with
    | Some cm =>
        let score := (score + 70)%Z in
        let score :=
          if (3 <=? len (topics cm))%Z then (score + 5)%Z else score in
        let score :=
          if (3 <=? len (interests cm))%Z then (score + 5)%Z else score in
        let score :=
          if (5 <=? len (history cm))%Z then (score + 5)%Z else score in
        score
    | None => score
    end in
  let score :=
    match twitter userData with
    | Some tw =>
        if Quality_eqb (q_twitter (dataQuality userData)) real then
          let score := (score + 10)%Z in
          let score :=
            if (10 <=? len (tweets tw))%Z then (score + 3)%Z else score in
          let score :=
            if (20 <=? len (following tw))%Z then (score + 2)%Z else score in
          score
        else score
    | None => score
    end in
  Z.min score 100.

End Collector.

(** ** Regular expressions (the fragment the tables use) *)

Module Regex.

(** Characters, concatenation, alternation and the word boundary [\b];
    every pattern carries the [i] flag. *)
Inductive Re :=
| Eps
| Chr (c : ascii)
| Seq (a b : Re)
| Alt (a b : Re)
| Never
| WordB.

Definition is_upper (c : ascii) : bool :=
  let n := nat_of_ascii c in (65 <=? n)%nat && (n <=? 90)%nat.

Definition lower (c : ascii) : ascii :=
  if is_upper c then ascii_of_nat (nat_of_ascii c + 32) else c.

(** [\w]: an ASCII letter, a digit or the underscore. *)
Definition is_word (c : ascii) : bool :=
  let n := nat_of_ascii c in
  ((65 <=? n)%nat && (n <=? 90)%nat) ||
  ((97 <=? n)%nat && (n <=? 122)%nat) ||
  ((48 <=? n)%nat && (n <=? 57)%nat) ||
  (n =? 95)%nat.

Definition is_word_opt (c : option ascii) : bool :=
  match c with Some c => is_word c | None => false end.

Definition head (s : string) : option ascii :=
  match s with EmptyString => None | String c _ => Some c end.

(** Backtracking matcher in continuation-passing style: [prev] is the
    character before the current position, [k] the rest of the match. *)
Fixpoint matches (r : Re) (prev : option ascii) (s : string)
  (k : option ascii -> string -> bool) : bool :=
  match r with
  | Eps => k prev s
  | Chr c =>
      match s with
      | String d s' =>
          if Ascii.eqb (lower c) (lower d) then k (Some d) s' else false
      | EmptyString => false
      end
  | Seq a b => matches a prev s (fun p s' => matches b p s' k)
  | Alt a b => matches a prev s k || matches b prev s k
  | Never => false
  | WordB => xorb (is_word_opt prev) (is_word_opt (head s)) && k prev s
  end.

(** Try every start position, left to right. *)
Fixpoint test_from (r : Re) (prev : option ascii) (s : string) : bool :=
  matches r prev s (fun _ _ => true) ||
  match s with
  | EmptyString => false
  | String c s' => test_from r (Some c) s'
  end.

(** [regex.test(s)] *)
Definition test (r : Re) (s : string) : bool := test_from r None s.

(** A literal word, and an alternation of literal words. *)
Fixpoint lit (w : string) : Re :=
  match w with
  | EmptyString => Eps
  | String c w' => Seq (Chr c) (lit w')
  end.

Definition any_of (ws : list string) : Re :=
  fold_right (fun w r => Alt (lit w) r) Never ws.

(** [/\b(w1|w2|...)/i] and [/\b(w1|w2|...)\b/i] *)
Definition word_start (ws : list string) : Re := Seq WordB (any_of ws).
Definition whole_word (ws : list string) : Re :=
  Seq WordB (Seq (any_of ws) WordB).

(** [s.toLowerCase()] and [parts.join(' ')] *)
Fixpoint toLowerCase (s : string) : string :=
  match s with
  | EmptyString => EmptyString
  | String c s' => String (lower c) (toLowerCase s')
  end.

Fixpoint join (sep : string) (parts : list string) : string :=
  match parts with
  | [] => EmptyString
  | [p] => p
  | p :: rest => (p ++ sep ++ join sep rest)%string
  end.

End Regex.

(** ** Signal merger (data-collector-enhanced.ts, second part) *)

Module Merger.
Import Regex.

(** USER.md signals, as declared by the parser. *)
Record UserMdSignals := {
  role : option string;
  currentFocus : option (list string);
  techStack : option (list string);
  interests : option (list string);
  workingStyle : option string;
  raw : option (list (string * string))
}.

(** [categoryWeights] is an object used as a dictionary: its entries are
    listed in [Object.entries] order and its keys are pairwise distinct.
    [eventCount] is the number of recorded feedback events. *)
Record FeedbackData := {
  categoryWeights : option (list (string * Q));
  excludeSkillIds : option (list string);
  eventCount : nat
}.

Record Dimensions (A : Type) := {
  conviction : A;
  intuition : A;
  contribution : A
}.
Arguments conviction {A} d.
Arguments intuition {A} d.
Arguments contribution {A} d.

Record MergedSignals := {
  mainCategories : list string;
  subCategories : list string;
  dimensionNudges : Dimensions Z;
  excludedSkillIds : option (list string);
  merged_categoryWeights : option (list (string * Q))
}.

(** *** [Map<string, number>] in insertion order *)

Definition Scoreboard := list (string * Q).

Fixpoint map_get (m : Scoreboard) (k : string) : option Q :=
  match m with
  | [] => None
  | (k', v) :: m' => if String.eqb k' k then Some v else map_get m' k
  end.

(** [Array.from(m.keys())] *)
Definition keys (m : Scoreboard) : list string := map fst m.

(** [set] overwrites in place, a new key goes last. *)
Fixpoint map_set (m : Scoreboard) (k : string) (v : Q) : Scoreboard :=
  match m with
  | [] => [(k, v)]
  | (k', v') :: m' =>
      if String.eqb k' k then (k', v) :: m' else (k', v') :: map_set m' k v
  end.

(** [categoryScores.get(cat) || 0] *)
Definition get_or_zero (m : Scoreboard) (k : string) : Q :=
  match map_get m k with
  | Some v => if Qeq_bool v 0 then 0 else v
  | None => 0
  end.

(** [Set<string>.add] in insertion order. *)
Definition set_add (s : list string) (x : string) : list string :=
  if existsb (String.eqb x) s then s else s ++ [x].

(** *** USER.md to categories *)

Definition ROLE_CATEGORY_MAP : list (Re * string) :=
  [ (word_start ["bd"; "sales"; "growth"; "business dev"], "Marketing");
    (word_start ["develop"; "engineer"; "programmer"; "software"; "coding"],
     "Development");
    (word_start ["research"; "scientist"; "academic"], "Education");
    (word_start ["design"; "ui"; "ux"; "creative"], "Design");
    (word_start ["market"; "seo"; "content"; "brand"], "Marketing");
    (word_start ["financ"; "invest"; "trad"], "Finance");
    (word_start ["founder"; "cto"; "ceo"; "co-founder"], "Development");
    (word_start ["community"; "advocate"; "ambassador"], "Marketing") ].

Definition FOCUS_CATEGORY_MAP : list (Re * string) :=
  [ (word_start ["defi"; "crypto"; "web3"; "blockchain"; "token"; "dao";
                 "nft"; "onchain"], "Crypto");
    (word_start ["ai"; "llm"; "agent"; "machine learning"; "gpt"; "neural"],
     "AI Tools");
    (word_start ["design"; "ui"; "ux"; "figma"], "Design");
    (word_start ["educat"; "learn"; "teach"; "course"], "Education");
    (word_start ["wellness"; "health"; "fitness"; "meditation"], "Wellness");
    (word_start ["productiv"; "workflow"; "automat"], "Productivity") ].

Definition TECH_CATEGORY_MAP : list (Re * string) :=
  [ (word_start ["claude-code"; "claude"; "anthropic"; "openai"; "gpt"],
     "AI Tools");
    (whole_word ["typescript"; "javascript"; "python"; "rust"; "go"; "java"],
     "Development");
    (word_start ["solidity"; "hardhat"; "foundry"; "ethers"; "viem"; "wagmi"],
     "Crypto");
    (word_start ["react"; "next"; "vue"; "svelte"; "angular"], "Development");
    (word_start ["figma"; "sketch"; "adobe"], "Design") ].

(** One [for (const [regex, category] of TABLE)] loop. *)
Definition add_matching (table : list (Re * string)) (text : string)
  (categories : list string) : list string :=
  fold_left
    (fun cats entry =>
       if test (fst entry) text then set_add cats (snd entry) else cats)
    table categories.

Definition mapUserMdToCategories (userMd : UserMdSignals) : list string :=
  let categories := [] in
  let categories :=
    match role userMd with
    | Some r =>
        if truthy_string r then add_matching ROLE_CATEGORY_MAP r categories
        else categories
    | None => categories
    end in
  let categories :=
    match currentFocus userMd with
    | Some focus =>
        let focusText := join " " focus in
        add_matching FOCUS_CATEGORY_MAP focusText categories
    | None => categories
    end in
  let categories :=
    match techStack userMd with
    | Some tech =>
        let techText := join " " tech in
        add_matching TECH_CATEGORY_MAP techText categories
    | None => categories
    end in
  categories.

(** *** Dimension nudges from USER.md *)

Definition clamp (value min max : Z) : Z := Z.max min (Z.min max value).

Definition calculateDimensionNudges (userMd : UserMdSignals) : Dimensions Z :=
  let conviction := 0%Z in
  let intuition := 0%Z in
  let contribution := 0%Z in
  let '(conviction, intuition) :=
    match workingStyle userMd with
    | Some ws =>
        if String.eqb ws "deep-focus" then ((conviction + 15)%Z, intuition)
        else if String.eqb ws "explorer" || String.eqb ws "multitasker"
             then ((conviction - 10)%Z, (intuition + 10)%Z)
             else (conviction, intuition)
    | None => (conviction, intuition)
    end in
  let '(conviction, intuition, contribution) :=
    match role userMd with
    | Some r =>
        if truthy_string r then
          let roleLower := toLowerCase r in
          let intuition :=
            if test (any_of ["research"]) roleLower
            then (intuition + 10)%Z else intuition in
          let contribution :=
            if test (any_of ["community"; "bd"; "business dev"; "ambassador"])
                    roleLower
            then (contribution + 10)%Z else contribution in
          let conviction :=
            if test (any_of ["founder"; "cto"; "ceo"; "co-founder"]) roleLower
            then (conviction + 10)%Z else conviction in
          (conviction, intuition, contribution)
        else (conviction, intuition, contribution)
    | None => (conviction, intuition, contribution)
    end in
  {| conviction := clamp conviction (-15) 15;
     intuition := clamp intuition (-15) 15;
     contribution := clamp contribution (-15) 15 |}.

(** *** Dynamic weights *)

(** [feedback?.eventCount ?? 0] *)
Definition eventCountOf (feedback : option FeedbackData) : nat :=
  match feedback with
  | Some f => eventCount f
  | None => 0%nat
  end.

Definition feedbackWeightOf (feedback : option FeedbackData) : Q :=
  let eventCount := eventCountOf feedback in
  Qmin (3 # 10) (inject_Z (Z.of_nat eventCount) * (2 # 100)).

Definition userMdWeightOf (userMd : option UserMdSignals)
  (feedback : option FeedbackData) : Q :=
  let feedbackWeight := feedbackWeightOf feedback in
  match userMd with
  | Some _ => Qmax (2 # 10) ((3 # 10) - feedbackWeight * (33 # 100))
  | None => 0
  end.

(** *** Category scores *)

(** [for (let i = 0; i < cats.length; i++)] adding the position-decayed
    weight of [cats[i]]; the loop is entered at index [i]. *)
Fixpoint add_positional (weight : Q) (i : nat) (cats : list string)
  (categoryScores : Scoreboard) : Scoreboard :=
  match cats with
  | [] => categoryScores
  | cat :: rest =>
      let positionBonus := 1 - inject_Z (Z.of_nat i) * (1 # 10) in
      add_positional weight (S i) rest
        (map_set categoryScores cat
           (get_or_zero categoryScores cat + weight * positionBonus))
  end.

(** What the loop appends when every category met is new to the
    scoreboard: one entry per category, in order. *)
Fixpoint positional_entries (weight : Q) (i : nat) (cats : list string)
  : Scoreboard :=
  match cats with
  | [] => []
  | cat :: rest =>
      (cat, 0 + weight * (1 - inject_Z (Z.of_nat i) * (1 # 10)))
        :: positional_entries weight (S i) rest
  end.

(** One turn of the loop over [Object.entries(feedback.categoryWeights)]. *)
Definition feedback_step (feedbackWeight : Q) (cat : string) (weight : Q)
  (categoryScores : Scoreboard) : Scoreboard :=
  let existing := get_or_zero categoryScores cat in
  if Qltb 0 existing
  then map_set categoryScores cat (existing * weight)
  else if Qltb (12 # 10) weight
       then map_set categoryScores cat (feedbackWeight * (weight - 1))
       else categoryScores.

(** The loop over [Object.entries(feedback.categoryWeights)]. *)
Fixpoint apply_feedback (feedbackWeight : Q) (entries : list (string * Q))
  (categoryScores : Scoreboard) : Scoreboard :=
  match entries with
  | [] => categoryScores
  | (cat, weight) :: rest =>
      apply_feedback feedbackWeight rest
        (feedback_step feedbackWeight cat weight categoryScores)
  end.

Definition userMdCategoriesOf (userMd : option UserMdSignals) : list string :=
  match userMd with
  | Some u => mapUserMdToCategories u
  | None => []
  end.

(** [userMd?.interests ?? []] *)
Definition userMdSubCategoriesOf (userMd : option UserMdSignals)
  : list string :=
  match userMd with
  | Some u => match interests u with Some l => l | None => [] end
  | None => []
  end.

(** The scoreboard after the conversation and the USER.md loops. *)
Definition accumulatedScores (conversationCategories : list string)
  (userMd : option UserMdSignals) (feedback : option FeedbackData)
  : Scoreboard :=
  let feedbackWeight := feedbackWeightOf feedback in
  let userMdWeight := userMdWeightOf userMd feedback in
  let userMdCategories := userMdCategoriesOf userMd in
  let categoryScores := [] in
  let convWeight := 1 - userMdWeight - feedbackWeight in
  let categoryScores :=
    add_positional convWeight 0 conversationCategories categoryScores in
  add_positional userMdWeight 0 userMdCategories categoryScores.

(** The entries of [feedback?.categoryWeights], none when it is missing. *)
Definition feedbackEntries (feedback : option FeedbackData)
  : list (string * Q) :=
  match feedback with
  | Some f => match categoryWeights f with Some cw => cw | None => [] end
  | None => []
  end.

(** The scoreboard after the feedback loop. *)
Definition finalScores (conversationCategories : list string)
  (userMd : option UserMdSignals) (feedback : option FeedbackData)
  : Scoreboard :=
  apply_feedback (feedbackWeightOf feedback) (feedbackEntries feedback)
    (accumulatedScores conversationCategories userMd feedback).

Definition mergeSignals (conversationCategories : list string)
  (conversationDimensions : Dimensions Q)
  (userMd : option UserMdSignals) (feedback : option FeedbackData)
  : MergedSignals :=
  let userMdWeight := userMdWeightOf userMd feedback in
  let userMdSubCategories := userMdSubCategoriesOf userMd in
  let categoryScores := finalScores conversationCategories userMd feedback in
  let sortedCategories := map fst (sort_desc snd categoryScores) in
  let mainCategories := slice_to 3 sortedCategories in
  let subCategorySet := [] in
  let subCategorySet :=
    fold_left set_add (slice_from 3 sortedCategories) subCategorySet in
  let subCategorySet := fold_left set_add userMdSubCategories subCategorySet in
  let subCategories := slice_to 10 subCategorySet in
  let dimensionNudges :=
    match userMd with
    | Some u => calculateDimensionNudges u
    | None => {| conviction := 0%Z; intuition := 0%Z; contribution := 0%Z |}
    end in
  let scale (n : Z) : Z :=
    Math_round (inject_Z n * (userMdWeight / (3 # 10))) in
  let dimensionNudges :=
    {| conviction := scale (conviction dimensionNudges);
       intuition := scale (intuition dimensionNudges);
       contribution := scale (contribution dimensionNudges) |} in
  {| mainCategories :=
       if (0 <? len mainCategories)%Z then mainCategories
       else conversationCategories;
     subCategories := subCategories;
     dimensionNudges := dimensionNudges;
     excludedSkillIds :=
       match feedback with Some f => excludeSkillIds f | None => None end;
     merged_categoryWeights :=
       match feedback with Some f => categoryWeights f | None => None end |}.

End Merger.

(** ** Dimension classifier *)

Module Classifier.

Inductive IdentityType :=
| Visionary
| Explorer
| Optimizer
| Innovator
| Cultivator.

(** Modelled from the spec: the classifier lives in personality-analyzer.ts,
    which is not among the sources; only its description survives, in the
    specification (section 4.3) and in docs/CONVERSATION-ANALYSIS.md.  The
    contribution override is tested first, then the quadrant is read off
    the two inclusive thresholds at 50. *)
Definition classify (conviction intuition contribution : Q) : IdentityType :=
  if Qltb 65 contribution then Cultivator
  else if Qle_bool 50 conviction then
         if Qle_bool 50 intuition then Visionary else Optimizer
       else
         if Qle_bool 50 intuition then Explorer else Innovator.

End Classifier.

(** ** ClawHub client: search over several categories *)

Module ClawHub.

Record Stats := {
  downloads : Z;
  versions : Z;
  stars : Z;
  installsAllTime : Z;
  comments : Z
}.

Record Moderation := { isSuspicious : bool; isMalwareBlocked : bool }.

Record ClawHubSkill := {
  slug : string;
  version : string;
  name : string;
  description : string;
  similarityScore : Q;
  url : string;
  categories : option (list string);
  creator : option string;
  creatorUserId : option string;
  stats : option Stats;
  moderation : option Moderation
}.

Record ClawHubSearchOptions := { query : string; limit : option Z }.

Section WithRegistry.

(** The HTTP round trip of [searchSkills] with the parsed answer: the
    skills found for a query and a limit, or a failure. *)
Variable fetch_search : string -> Z -> Outcome (list ClawHubSkill).

Definition searchSkills (options : ClawHubSearchOptions)
  : list ClawHubSkill :=
  let limit := match limit options with Some l => l | None => 10%Z end in
  match try_catch (fetch_search (query options) limit)
                  (fun _ => Returned []) with
  | Returned skills => skills
  | Thrown _ => []
  end.

(** The body of the inner loop: a skill whose slug was seen is skipped. *)
Definition visit (st : list string * list ClawHubSkill)
  (skill : ClawHubSkill) : list string * list ClawHubSkill :=
  let '(seenSlugs, allResults) := st in
  if existsb (String.eqb (slug skill)) seenSlugs then st
  else (seenSlugs ++ [slug skill], allResults ++ [skill]).

(** Flatten and deduplicate by slug. *)
Definition dedupe (resultsArrays : list (list ClawHubSkill))
  : list ClawHubSkill :=
  snd (fold_left (fun st results => fold_left visit results st)
                 resultsArrays ([], [])).

(** [Promise.all] over one search per category: the answers, in the
    order of the categories.  [limitPerCategory] defaults to 3. *)
Definition searchAll (categories : list string)
  (limitPerCategory : option Z) : list (list ClawHubSkill) :=
  let limitPerCategory :=
    match limitPerCategory with Some l => l | None => 3%Z end in
  map (fun category =>
         searchSkills {| query := category;
                         limit := Some limitPerCategory |})
      categories.

Definition searchMultipleCategories (categories : list string)
  (limitPerCategory : option Z) : list ClawHubSkill :=
  let resultsArrays := searchAll categories limitPerCategory in
  let allResults := dedupe resultsArrays in
  sort_desc similarityScore allResults.

End WithRegistry.

(** The first hit of a slug in a list of hits. *)
Definition first_hit (sl : string) (hits : list ClawHubSkill)
  : option ClawHubSkill :=
  find (fun h => String.eqb (slug h) sl) hits.

(** The hits the loop keeps from a list, given the slugs seen before it. *)
Fixpoint kept (hits : list ClawHubSkill) (seenSlugs : list string)
  : list ClawHubSkill :=
  match hits with
  | [] => []
  | h :: rest =>
      if existsb (String.eqb (slug h)) seenSlugs then kept rest seenSlugs
      else h :: kept rest (seenSlugs ++ [slug h])
  end.

End ClawHub.

(** ** Data quality as the specification words it *)

Module QualitySpec.
Import Collector.

Definition points (cond : bool) (pts : Z) : Z := if cond then pts else 0%Z.

(** A conversation bundle is available when it is there and counts at least
    three messages: a bundle of fewer than three messages is invalid and is
    not to be treated as available. *)
Definition conversation_available (u : UserData) : bool :=
  match conversationMemory u with
  | Some cm => (3 <=? messageCount cm)%Z
  | None => false
  end.

(** The public source has something in it: a bio or at least one tweet. *)
Definition twitter_non_empty (tw : TwitterData) : bool :=
  truthy_string (bio tw) || (0 <? len (tweets tw))%Z.

(** The public source is available: it is there, with quality [real]. *)
Definition twitter_available (u : UserData) : bool :=
  match twitter u with
  | Some _ => Quality_eqb (q_twitter (dataQuality u)) real
  | None => false
  end.

(** 70 for an available conversation, +5 for each richness criterion. *)
Definition spec_conversationPoints (u : UserData) : Z :=
  match conversationMemory u with
  | Some cm =>
      if conversation_available u then
        (70 + points (3 <=? len (topics cm)) 5
            + points (3 <=? len (interests cm)) 5
            + points (5 <=? len (history cm)) 5)%Z
      else 0%Z
  | None => 0%Z
  end.

(** 10 for an available, non-empty Twitter source, +3 and +2 for its
    activity and its network. *)
Definition spec_twitterPoints (u : UserData) : Z :=
  match twitter u with
  | Some tw =>
      if twitter_available u && twitter_non_empty tw then
        (10 + points (10 <=? len (tweets tw)) 3
            + points (20 <=? len (following tw)) 2)%Z
      else 0%Z
  | None => 0%Z
  end.

Definition spec_dataQualityScore (u : UserData) : Z :=
  Z.max 0 (Z.min 100 (spec_conversationPoints u + spec_twitterPoints u)).

(** The Twitter points as the code gives them: by the quality flag alone,
    without a second look at the bio and the tweets. *)
Definition flagged_twitterPoints (u : UserData) : Z :=
  match twitter u with
  | Some tw =>
      if twitter_available u then
        (10 + points (10 <=? len (tweets tw)) 3
            + points (20 <=? len (following tw)) 2)%Z
      else 0%Z
  | None => 0%Z
  end.

End QualitySpec.

(** ** Sample inputs *)

Module Samples.
Import Collector.

(** A session of two messages, and integrations with nothing else to give. *)
Definition twoMessages : SessionAnalysis :=
  {| a_topics := ["AI Tools"]; a_interests := ["agents"];
     a_preferences := []; a_history := ["hello"; "what can you do"];
     a_messageCount := 2 |}.

Definition quietIntegrations : Integrations :=
  {| readSessionHistory := fun _ => Returned twoMessages;
     fetchTwitterProfile := fun _ => Returned None;
     fetchTwitterFollowing := fun _ _ => Returned None;
     analyzeInteractions := fun _ =>
       Returned {| likes := []; retweets := []; replies := [] |};
     getUserWallet := fun _ => Returned None |}.

Definition twoMessagesAndTwitter : UserData :=
  {| sources := ["Conversation"; "Twitter"; "Wallet"];
     permissions := {| p_twitter := true; p_conversation := true |};
     dataQuality := {| q_twitter := real; q_conversation := real |};
     twitter := Some {| bio := "builder"; following := []; tweets := [];
                        interactions := {| likes := []; retweets := [];
                                           replies := [] |} |};
     conversationMemory :=
       Some {| topics := ["AI Tools"]; interests := []; preferences := [];
               history := ["hi"; "there"]; messageCount := 2 |};
     wallet := Some (emptyWalletData "0xabc"); farcaster := None |}.

Import Merger.

Definition anyDimensions : Dimensions Q :=
  {| conviction := 50; intuition := 50; contribution := 50 |}.

Definition fourCategories : list string :=
  ["AI Tools"; "Crypto"; "Design"; "Finance"].

(** A USER.md that declares one interest and nothing else. *)
Definition interestedInAiTools : UserMdSignals :=
  {| role := None; currentFocus := None; techStack := None;
     interests := Some ["AI Tools"]; workingStyle := None; raw := None |}.

(** Twelve conversation categories: the twelfth has position bonus
    [1 - 11 * 0.1], below zero. *)
Definition twelveCategories : list string :=
  ["AI Tools"; "Productivity"; "Wellness"; "Education"; "Crypto";
   "Lifestyle"; "Design"; "Development"; "Marketing"; "Finance";
   "Gaming"; "Music"].

Definition halveMusic : FeedbackData :=
  {| categoryWeights := Some [("Music", 1 # 2)]; excludeSkillIds := None;
     eventCount := 0 |}.

(** What [collect] returns on [quietIntegrations]: the empty memory of zero
    messages, recorded as a real conversation. *)
Definition shortSessionResult : Collector.UserData :=
  {| Collector.sources := ["Conversation"];
     Collector.permissions :=
       {| Collector.p_twitter := true; Collector.p_conversation := true |};
     Collector.dataQuality :=
       {| Collector.q_twitter := Collector.none;
          Collector.q_conversation := Collector.real |};
     Collector.twitter :=
       Some {| Collector.bio := EmptyString; Collector.following := [];
               Collector.tweets := [];
               Collector.interactions :=
                 {| Collector.likes := []; Collector.retweets := [];
                    Collector.replies := [] |} |};
     Collector.conversationMemory :=
       Some {| Collector.topics := []; Collector.interests := [];
               Collector.preferences := []; Collector.history := [];
               Collector.messageCount := 0 |};
     Collector.wallet := None; Collector.farcaster := None |}.

(** No conversation, and an empty Twitter record flagged as real. *)
Definition emptyTwitterFlaggedReal : Collector.UserData :=
  {| Collector.sources := ["Twitter"];
     Collector.permissions :=
       {| Collector.p_twitter := true; Collector.p_conversation := false |};
     Collector.dataQuality :=
       {| Collector.q_twitter := Collector.real;
          Collector.q_conversation := Collector.none |};
     Collector.twitter :=
       Some {| Collector.bio := EmptyString; Collector.following := [];
               Collector.tweets := [];
               Collector.interactions :=
                 {| Collector.likes := []; Collector.retweets := [];
                    Collector.replies := [] |} |};
     Collector.conversationMemory := None;
     Collector.wallet := None; Collector.farcaster := None |}.

(** A conversation of four messages with three topics, and a Twitter bio. *)
Definition fourMessagesAndBio : Collector.UserData :=
  {| Collector.sources := ["Conversation"; "Twitter"];
     Collector.permissions :=
       {| Collector.p_twitter := true; Collector.p_conversation := true |};
     Collector.dataQuality :=
       {| Collector.q_twitter := Collector.real;
          Collector.q_conversation := Collector.real |};
     Collector.twitter :=
       Some {| Collector.bio := "builder"; Collector.following := [];
               Collector.tweets := [];
               Collector.interactions :=
                 {| Collector.likes := []; Collector.retweets := [];
                    Collector.replies := [] |} |};
     Collector.conversationMemory :=
       Some {| Collector.topics := ["AI Tools"; "Crypto"; "Design"];
               Collector.interests := ["agents"];
               Collector.preferences := [];
               Collector.history := ["a"; "b"; "c"; "d"];
               Collector.messageCount := 4 |};
     Collector.wallet := None; Collector.farcaster := None |}.

(** A feedback of twenty events, without category weights. *)
Definition twentyEvents : FeedbackData :=
  {| categoryWeights := None; excludeSkillIds := None; eventCount := 20 |}.

(** Integrations whose Twitter fetch fails. *)
Definition failingTwitter : Collector.Integrations :=
  {| Collector.readSessionHistory := fun _ => Returned twoMessages;
     Collector.fetchTwitterProfile := fun _ => Thrown "bird CLI not found";
     Collector.fetchTwitterFollowing := fun _ _ => Returned None;
     Collector.analyzeInteractions := fun _ =>
       Returned {| Collector.likes := []; Collector.retweets := [];
                   Collector.replies := [] |};
     Collector.getUserWallet := fun _ => Returned None |}.

Definition doubleCrypto : FeedbackData :=
  {| categoryWeights := Some [("Crypto", 2 # 1)]; excludeSkillIds := None;
     eventCount := 5 |}.

(** One skill, found by two category searches with different scores. *)
Definition hit (sl nm : string) (score : Q) : ClawHub.ClawHubSkill :=
  {| ClawHub.slug := sl; ClawHub.version := "v1.0.0"; ClawHub.name := nm;
     ClawHub.description := EmptyString;
     ClawHub.similarityScore := score;
     ClawHub.url := ("https://clawhub.ai/skills/" ++ sl)%string;
     ClawHub.categories := None; ClawHub.creator := None;
     ClawHub.creatorUserId := None; ClawHub.stats := None;
     ClawHub.moderation := None |}.

Definition twoAnswers (q : string) (limit : Z)
  : Outcome (list ClawHub.ClawHubSkill) :=
  if String.eqb q "AI Tools" then Returned [hit "agent-kit" "Agent Kit" (1 # 2)]
  else if String.eqb q "Crypto"
       then Returned [hit "agent-kit" "Agent Kit" (9 # 10);
                      hit "gas-tracker" "Gas Tracker" (7 # 10)]
       else Thrown "HTTP 500: Internal Server Error".

End Samples.

(** ** Further code of the same files *)

(** *** Text helpers *)

Module Text.

(** [s.includes(sub)] *)
Fixpoint includes (s sub : string) : bool :=
  String.prefix sub s ||
  match s with
  | EmptyString => false
  | String _ s' => includes s' sub
  end.

(** [keywords.some(k => text.includes(k))] *)
Definition some_included (text : string) (keywords : list string) : bool :=
  existsb (fun k => includes text k) keywords.

End Text.

(** *** data-collector-enhanced.ts: the quality summary *)

Module CollectorSummary.
Import Collector Regex.

Definition getDataQualitySummary (userData : UserData) : string :=
  let score := getDataQualityScore userData in
  let sources := join " + " (sources userData) in
  if (75 <=? score)%Z then
    ("High confidence (" ++ number_text score ++ "/100) - " ++ sources
       ++ " - authentic personality")%string
  else if (50 <=? score)%Z then
    ("Medium confidence (" ++ number_text score ++ "/100) - " ++ sources)%string
  else if (0 <? score)%Z then
    ("Low confidence (" ++ number_text score ++ "/100) - " ++ sources
       ++ " - consider manual Q&A")%string
  else "No data - fallback to manual Q&A required".

End CollectorSummary.

(** *** types/categories.ts *)

Module Categories.
Import Regex Text.

Definition CANONICAL_CATEGORIES : list string :=
  ["AI Tools"; "Productivity"; "Wellness"; "Education"; "Crypto";
   "Lifestyle"; "Design"; "Development"; "Marketing"; "Finance"].

(** [Object.entries(CATEGORY_KEYWORDS)], in the order of the literal. *)
Definition CATEGORY_KEYWORDS : list (string * list string) :=
  [ ("AI Tools",
     ["ai"; "gpt"; "llm"; "machine learning"; "neural"; "model"; "chatbot";
      "openai"; "anthropic"; "claude"; "copilot"; "prompt"; "inference";
      "transformer"; "agent"; "gemini"; "image gen"; "text-to"]);
    ("Productivity",
     ["productivity"; "workflow"; "automation"; "efficiency";
      "task management"; "notion"; "calendar"; "time tracking"; "optimize";
      "systematic"; "slide"; "template"; "formatter"; "compress"]);
    ("Wellness",
     ["wellness"; "health"; "fitness"; "meditation"; "mindfulness";
      "mental health"; "yoga"; "sleep"; "nutrition"; "self-care";
      "wellbeing"]);
    ("Education",
     ["education"; "learning"; "course"; "teach"; "knowledge"; "tutorial";
      "study"; "mentor"; "curriculum"; "workshop"; "training"; "comic";
      "explainer"]);
    ("Crypto",
     ["crypto"; "defi"; "web3"; "blockchain"; "token"; "dao"; "nft";
      "onchain"; "smart contract"; "wallet"; "protocol"; "ethereum";
      "solana"; "base"]);
    ("Lifestyle",
     ["lifestyle"; "fashion"; "travel"; "personal brand"; "food";
      "photography"]);
    ("Design",
     ["design"; "ui"; "ux"; "figma"; "creative"; "visual"; "typography";
      "layout"; "prototype"; "infographic"; "illustration"; "cover image";
      "graphic"]);
    ("Development",
     ["development"; "coding"; "programming"; "software"; "engineering";
      "code"; "developer"; "api"; "framework"; "architecture"; "debugging";
      "typescript"; "python"; "rust"; "markdown"; "html"; "cli"; "url-to";
      "converter"; "formatter"]);
    ("Marketing",
     ["marketing"; "growth"; "seo"; "content strategy"; "advertising";
      "brand"; "conversion"; "funnel"; "campaign"; "audience"; "copywriting";
      "copy editing"; "cro"; "landing page"; "onboarding"; "churn";
      "referral"; "email sequence"; "cold email"; "drip"; "pricing";
      "paywall"; "popup"; "a/b test"; "split test"; "analytics"; "tracking";
      "ads"; "ad creative"; "competitor"; "launch"; "social content";
      "social media"; "wechat"; "xiaohongshu"; "post to x"]);
    ("Finance",
     ["finance"; "investing"; "trading"; "portfolio"; "wealth"; "stock";
      "market"; "budget"; "revenue"]) ].

Definition BLOCKED_KEYWORDS : list string :=
  ["hack"; "crack"; "exploit"; "phishing"; "drainer"; "stealer";
   "keylogger"; "malware"; "trojan"; "botnet"; "ransomware";
   "brute-force"; "password-crack"; "rat-tool"; "spyware";
   "wallet-drainer"; "token-grabber"; "cookie-stealer"].

(** The test of one keyword: plain inclusion for a hyphenated keyword,
    the expression [\bkeyword\b] with the [i] flag for the others. *)
Definition blocked_by (lower keyword : string) : bool :=
  if includes keyword "-" then includes lower keyword
  else test (whole_word [keyword]) lower.

Definition containsBlockedKeyword (text : string) : bool :=
  let lower := toLowerCase text in
  existsb (blocked_by lower) BLOCKED_KEYWORDS.

End Categories.

(** *** parsers/user-md-parser.ts *)

Module UserMdParser.
Import Regex Text.

Definition deepFocusKeywords : list string :=
  ["deep focus"; "deep-focus"; "focused"; "single task"; "deep dive";
   "concentrated"; "immersive"; "flow state"; "specialist"].

Definition explorerKeywords : list string :=
  ["explorer"; "exploring"; "curious"; "breadth"; "diverse"; "variety";
   "experiment"; "try new"; "discover"].

Definition multitaskerKeywords : list string :=
  ["multitask"; "multi-task"; "juggle"; "parallel"; "many projects";
   "context switch"; "wear many hats"; "generalist"].

(** [keywords.filter(k => lower.includes(k)).length] *)
Definition keyword_score (lower : string) (keywords : list string) : Z :=
  len (filter (fun k => includes lower k) keywords).

Definition inferWorkingStyle (body : string) : string :=
  let lower := toLowerCase body in
  let deepScore := keyword_score lower deepFocusKeywords in
  let explorerScore := keyword_score lower explorerKeywords in
  let multiScore := keyword_score lower multitaskerKeywords in
  if (explorerScore <=? deepScore)%Z && (multiScore <=? deepScore)%Z
     && (0 <? deepScore)%Z
  then "deep-focus"
  else if (multiScore <=? explorerScore)%Z && (0 <? explorerScore)%Z
       then "explorer"
       else if (0 <? multiScore)%Z then "multitasker"
            else "deep-focus".

End UserMdParser.

(** *** ClawHub client: category inference and recommendations *)

Module ClawHubRecommend.
Import Regex Text Categories ClawHub.

Definition inferCategories (slug description : string) : list string :=
  let categories := [] in
  let text := toLowerCase (slug ++ " " ++ description)%string in
  let categories :=
    fold_left
      (fun cats entry =>
         if some_included text (snd entry) then cats ++ [fst entry] else cats)
      CATEGORY_KEYWORDS categories in
  if (0 <? len categories)%Z then categories else ["General"].

(** [arr.slice(0, end)] for an integer [end]: a negative [end] counts from
    the end of the array. *)
Definition slice_to_int {A} (limit : Z) (l : list A) : list A :=
  if (limit <? 0)%Z then firstn (Z.to_nat (Z.max 0 (len l + limit))) l
  else firstn (Z.to_nat limit) l.

Record RecommendationOptions := {
  mainCategories : list string;
  subCategories : list string;
  rec_limit : option Z
}.

Section WithRegistry.

Variable fetch_search : string -> Z -> Outcome (list ClawHubSkill).

Definition getRecommendations (options : RecommendationOptions)
  : list ClawHubSkill :=
  let limit := match rec_limit options with Some l => l | None => 10%Z end in
  let mainResults :=
    searchMultipleCategories fetch_search (mainCategories options)
      (Some 4%Z) in
  let allResults :=
    if (len mainResults <? limit)%Z && (0 <? len (subCategories options))%Z
    then
      let subResults :=
        searchMultipleCategories fetch_search
          (slice_to 3 (subCategories options)) (Some 2%Z) in
      let seenSlugs := map slug mainResults in
      let uniqueSubResults :=
        filter (fun s => negb (existsb (String.eqb (slug s)) seenSlugs))
               subResults in
      mainResults ++ uniqueSubResults
    else mainResults in
  slice_to_int limit (sort_desc similarityScore allResults).

End WithRegistry.

End ClawHubRecommend.

(** *** Bloom mission skill: personalization *)

Module Missions.
Import Regex Text.

Record Reward := {
  reward_name : string;
  reward_type : string;
  amount : option Q;
  icon : option string
}.

Record Mission := {
  id : string;
  title : string;
  mission_slug : string;
  description : option string;
  imageUrl : option string;
  missionType : option string;
  status : string;
  endTime : string;
  startTime : string;
  rewards : list Reward;
  taskCount : Z;
  completedCount : Z
}.

(** The [keywords] table of [personalizeMissions]. *)
Definition signal_keywords : list (string * list string) :=
  [ ("crypto",
     ["crypto"; "defi"; "blockchain"; "web3"; "token"; "nft"; "wallet"]);
    ("ai",
     ["ai"; "artificial intelligence"; "llm"; "agent"; "machine learning"]);
    ("social", ["twitter"; "x.com"; "social"; "community"; "engagement"]);
    ("development", ["code"; "develop"; "build"; "engineering"; "github"]);
    ("trading", ["trade"; "swap"; "dex"; "exchange"; "yield"]) ].

Definition detect_signals (contextLower : string) : list string :=
  fold_left
    (fun signals entry =>
       if some_included contextLower (snd entry) then signals ++ [fst entry]
       else signals)
    signal_keywords [].

Definition scoreMission (mission : Mission) (signals : list string) : Z :=
  let text :=
    toLowerCase
      (title mission ++ " " ++
       match description mission with Some d => d | None => EmptyString end
      )%string in
  let score := 0%Z in
  let score :=
    fold_left
      (fun score signal =>
         if includes text signal then (score + 1)%Z else score)
      signals score in
  let score :=
    if match missionType mission with
       | Some t => String.eqb t "social_mission"
       | None => false
       end && existsb (String.eqb "social") signals
    then (score + 2)%Z else score in
  score.

Definition personalizeMissions (missions : list Mission)
  (context : option string) : list Mission :=
  match context with
  | None => missions
  | Some context =>
      if negb (truthy_string context) || (len missions =? 0)%Z then missions
      else
        let contextLower := toLowerCase context in
        let signals := detect_signals contextLower in
        if (len signals =? 0)%Z then missions
        else sort_desc (fun m => inject_Z (scoreMission m signals)) missions
  end.

End Missions.

(** * Properties *)

(** ** Numbers *)

Section Numbers.

Lemma Qltb_lt (x y : Q) : Qltb x y = true <-> x < y.
Proof.
  unfold Qltb. rewrite negb_true_iff.
  destruct (Qle_bool y x) eqn:E.
  - apply Qle_bool_iff in E. split; [discriminate | intro H; lra].
  - split; [intros _ | reflexivity].
    destruct (Qlt_le_dec x y) as [H | H]; [exact H |].
    apply Qle_bool_iff in H. congruence.
Qed.

Lemma Qltb_ge (x y : Q) : Qltb x y = false <-> y <= x.
Proof.
  unfold Qltb. rewrite negb_false_iff. apply Qle_bool_iff.
Qed.

Lemma Qle_bool_false (x y : Q) : Qle_bool x y = false <-> y < x.
Proof.
  rewrite <- Qltb_lt. unfold Qltb.
  destruct (Qle_bool x y); simpl; intuition congruence.
Qed.

Lemma Math_round_bounds (x : Q) (lo hi : Z) :
  inject_Z lo <= x -> x <= inject_Z hi ->
  (lo <= Math_round x <= hi)%Z.
Proof.
  intros Hlo Hhi. unfold Math_round. split.
  - rewrite <- (Qfloor_Z lo). apply Qfloor_resp_le. lra.
  - assert (H : (Qfloor (x + (1 # 2)) <= Qfloor (inject_Z hi + (1 # 2)))%Z)
      by (apply Qfloor_resp_le; lra).
    assert (E : Qfloor (inject_Z hi + (1 # 2)) = hi).
    { assert (A := Qfloor_le (inject_Z hi + (1 # 2))).
      assert (B := Qlt_floor (inject_Z hi + (1 # 2))).
      set (f := Qfloor (inject_Z hi + (1 # 2))) in *.
      assert (A' : inject_Z f < inject_Z (hi + 1)).
      { rewrite inject_Z_plus. change (inject_Z 1) with 1. lra. }
      assert (B' : inject_Z hi < inject_Z (f + 1)).
      { rewrite inject_Z_plus in B. rewrite inject_Z_plus.
        change (inject_Z 1) with 1 in *. lra. }
      rewrite <- Zlt_Qlt in A', B'. lia. }
    lia.
Qed.

End Numbers.

(** ** Signal collector *)

Section CollectorFacts.
Import Collector QualitySpec Samples.

(** The conversation reader never lets an exception out: whatever the
    session reader does, a memory comes back. *)
Lemma collectConversationMemory_returns (env : Integrations) (userId : string) :
  exists cm, collectConversationMemory env userId = Returned cm.
Proof.
  unfold collectConversationMemory, try_catch, bind.
  destruct (readSessionHistory env userId) as [a | e]; [| eauto].
  destruct (a_messageCount a <? 3)%Z; eauto.
Qed.

(** With fewer than three messages the memory that comes back is the
    empty one. *)
Lemma collectConversationMemory_short (env : Integrations) (userId : string)
  (a : SessionAnalysis) :
  readSessionHistory env userId = Returned a ->
  (a_messageCount a < 3)%Z ->
  collectConversationMemory env userId = Returned emptyConversationMemory.
Proof.
  intros Hr Hlt. unfold collectConversationMemory, try_catch, bind.
  rewrite Hr. apply Z.ltb_lt in Hlt. now rewrite Hlt.
Qed.

Lemma collect_twitter_keeps_conversation env userId options u :
  let u' := collect_twitter env userId options u in
  conversationMemory u' = conversationMemory u /\
  q_conversation (dataQuality u') = q_conversation (dataQuality u) /\
  p_conversation (permissions u') = p_conversation (permissions u) /\
  (forall s, In s (sources u) -> In s (sources u')).
Proof.
  unfold collect_twitter.
  destruct (negb (flag options skipTwitter)); simpl; [| tauto].
  destruct (collectTwitterData env userId) as [t | e]; simpl; [| tauto].
  destruct (truthy_string (bio t) || (0 <? len (tweets t))%Z); simpl;
    repeat split; auto; intros s Hs; apply in_or_app; auto.
Qed.

Lemma collect_wallet_keeps_conversation env userId options u :
  let u' := collect_wallet env userId options u in
  conversationMemory u' = conversationMemory u /\
  q_conversation (dataQuality u') = q_conversation (dataQuality u) /\
  p_conversation (permissions u') = p_conversation (permissions u) /\
  (forall s, In s (sources u) -> In s (sources u')).
Proof.
  unfold collect_wallet.
  destruct (flag options includeWallet); simpl; [| tauto].
  destruct (collectWalletData env userId) as [w | e]; simpl; [| tauto].
  repeat split; auto; intros s Hs; apply in_or_app; auto.
Qed.

(** Whenever the session reader reports fewer than three messages, [collect]
    still records the conversation as a collected, real source, holding the
    empty memory. *)
Lemma collect_short_conversation env userId options a :
  readSessionHistory env userId = Returned a ->
  (a_messageCount a < 3)%Z ->
  exists u, collect env userId options = Returned u /\
    In "Conversation" (sources u) /\
    q_conversation (dataQuality u) = real /\
    p_conversation (permissions u) = true /\
    conversationMemory u = Some emptyConversationMemory.
Proof.
  intros Hr Hlt. unfold collect. eexists; split; [reflexivity |].
  set (u1 := collect_conversation env userId initialUserData).
  assert (H1 : In "Conversation" (sources u1) /\
               q_conversation (dataQuality u1) = real /\
               p_conversation (permissions u1) = true /\
               conversationMemory u1 = Some emptyConversationMemory).
  { unfold u1, collect_conversation.
    rewrite (collectConversationMemory_short env userId a Hr Hlt).
    simpl. tauto. }
  destruct H1 as (Hs & Hq & Hp & Hm).
  destruct (collect_twitter_keeps_conversation env userId options u1)
    as (Tm & Tq & Tp & Ts).
  destruct (collect_wallet_keeps_conversation env userId options
              (collect_twitter env userId options u1))
    as (Wm & Wq & Wp & Ws).
  repeat split; try congruence. auto.
Qed.

(** C1 (defect in the code).  The claim asks that a conversation of fewer
    than three messages leave the conversation bundle unavailable and that
    the shortage reach the caller.  On a session of two messages [collect]
    returns normally, lists "Conversation" among the collected sources with
    quality [real] and permission granted, and holds the empty memory of
    zero messages in place of the analysis: the [throw] is caught inside
    [collectConversationMemory]. *)
Theorem collect_two_messages_recorded_as_real :
  collect quietIntegrations "user-1" None =
  Returned
    {| sources := ["Conversation"];
       permissions := {| p_twitter := true; p_conversation := true |};
       dataQuality := {| q_twitter := none; q_conversation := real |};
       twitter := Some emptyTwitterData;
       conversationMemory := Some emptyConversationMemory;
       wallet := None; farcaster := None |}.
Proof. reflexivity. Qed.

(** C10.  [hasSufficientData] answers [true] exactly when a conversation
    memory is present with at least three messages; it reads no other
    field, and a memory of fewer than three messages gives [false] whatever
    the other sources hold. *)
Theorem hasSufficientData_iff (u : UserData) :
  (hasSufficientData u = true <->
   exists cm, conversationMemory u = Some cm /\ (3 <= messageCount cm)%Z) /\
  (forall u', conversationMemory u' = conversationMemory u ->
              hasSufficientData u' = hasSufficientData u) /\
  (forall cm, conversationMemory u = Some cm -> (messageCount cm < 3)%Z ->
              hasSufficientData u = false).
Proof.
  unfold hasSufficientData. repeat split.
  - destruct (conversationMemory u) as [cm |]; [| discriminate].
    destruct (messageCount cm <? 3)%Z eqn:E; [discriminate |].
    intros _. exists cm. split; [reflexivity |]. apply Z.ltb_ge in E. lia.
  - intros (cm & -> & H). apply Z.ltb_ge in H. now rewrite H.
  - intros u' ->. reflexivity.
  - intros cm -> H. apply Z.ltb_lt in H. now rewrite H.
Qed.

Lemma hasSufficientData_iff_witness :
  hasSufficientData twoMessagesAndTwitter = false.
Proof.
  apply (proj2 (proj2 (hasSufficientData_iff twoMessagesAndTwitter))
           {| topics := ["AI Tools"]; interests := []; preferences := [];
              history := ["hi"; "there"]; messageCount := 2 |}).
  - reflexivity.
  - simpl. lia.
Defined.

(** C7, as the code has it.  For a user data whose conversation memory, when
    present, counts at least three messages, the data quality score is 70
    for an available conversation plus 5 for each of: three topics, three
    interests, five history snippets; plus 10 for a Twitter source that is
    present with quality [real], 3 more for ten tweets and 2 more for twenty
    followed accounts; the result lies in [0,100].  When moreover the
    quality [real] goes with a bio or a tweet, this is the score of the
    claim, for a Twitter source that is available and non-empty. *)
Theorem getDataQualityScore_spec (u : UserData) :
  (forall cm, conversationMemory u = Some cm -> (3 <= messageCount cm)%Z) ->
  getDataQualityScore u =
    Z.max 0 (Z.min 100 (spec_conversationPoints u + flagged_twitterPoints u))
  /\
  getDataQualityScore u =
    (spec_conversationPoints u + flagged_twitterPoints u)%Z /\
  (0 <= getDataQualityScore u <= 100)%Z /\
  ((forall tw, twitter u = Some tw -> q_twitter (dataQuality u) = real ->
               twitter_non_empty tw = true) ->
   getDataQualityScore u = spec_dataQualityScore u).
Proof.
  intros Hmc.
  assert (Hconv : spec_conversationPoints u =
                  match conversationMemory u with
                  | Some cm =>
                      (70 + points (3 <=? len (topics cm)) 5
                          + points (3 <=? len (interests cm)) 5
                          + points (5 <=? len (history cm)) 5)%Z
                  | None => 0%Z
                  end).
  { unfold spec_conversationPoints, conversation_available.
    destruct (conversationMemory u) as [cm |]; [| reflexivity].
    specialize (Hmc cm eq_refl). apply Z.leb_le in Hmc. now rewrite Hmc. }
  assert (Hsum : getDataQualityScore u =
                 (spec_conversationPoints u + flagged_twitterPoints u)%Z /\
                 (0 <= getDataQualityScore u <= 100)%Z).
  { rewrite Hconv.
    unfold getDataQualityScore, flagged_twitterPoints, twitter_available,
      points.
    destruct (conversationMemory u) as [cm |];
      destruct (twitter u) as [tw |];
      destruct (q_twitter (dataQuality u)); simpl Quality_eqb; cbv iota;
      repeat match goal with
             | |- context [if ?b then _ else _] => destruct b
             end; lia. }
  destruct Hsum as [Hsum Hrange].
  split; [lia |]. split; [exact Hsum |]. split; [exact Hrange |].
  intros Htw. unfold spec_dataQualityScore.
  assert (E : spec_twitterPoints u = flagged_twitterPoints u).
  { unfold spec_twitterPoints, flagged_twitterPoints, twitter_available.
    destruct (twitter u) as [tw |]; [| reflexivity].
    destruct (q_twitter (dataQuality u)); [| reflexivity].
    now rewrite (Htw tw eq_refl eq_refl). }
  rewrite E. lia.
Qed.

Lemma getDataQualityScore_spec_witness :
  getDataQualityScore fourMessagesAndBio = 85%Z /\
  getDataQualityScore fourMessagesAndBio
  = spec_dataQualityScore fourMessagesAndBio.
Proof.
  split; [reflexivity |].
  apply (getDataQualityScore_spec fourMessagesAndBio).
  - intros cm E. injection E as <-. simpl. lia.
  - intros tw E _. injection E as <-. reflexivity.
Defined.

(** C7 as stated fails.  The empty memory of zero messages that [collect]
    stores for a session of two messages is scored 70, although such a
    conversation is not available and [hasSufficientData] says so; and an
    empty Twitter record flagged [real] is scored 10. *)
Lemma getDataQualityScore_scores_unavailable :
  (collect quietIntegrations "user-1" None = Returned shortSessionResult /\
   hasSufficientData shortSessionResult = false /\
   conversation_available shortSessionResult = false /\
   getDataQualityScore shortSessionResult = 70%Z /\
   spec_dataQualityScore shortSessionResult = 0%Z) /\
  (getDataQualityScore emptyTwitterFlaggedReal = 10%Z /\
   spec_dataQualityScore emptyTwitterFlaggedReal = 0%Z) /\
  getDataQualityScore shortSessionResult
  <> spec_dataQualityScore shortSessionResult.
Proof.
  split; [repeat split |]. split; [split; reflexivity | discriminate].
Qed.

End CollectorFacts.

(** ** Sorting *)

Section Sorting.
Context {A : Type} (score : A -> Q).

Lemma insert_desc_perm (x : A) (l : list A) :
  Permutation (x :: l) (insert_desc score x l).
Proof.
  induction l as [| y l IH]; simpl; [reflexivity |].
  destruct (Qltb (score x) (score y)); [| reflexivity].
  rewrite perm_swap. now apply perm_skip.
Qed.

Lemma sort_desc_perm (l : list A) : Permutation l (sort_desc score l).
Proof.
  induction l as [| x l IH]; simpl; [reflexivity |].
  rewrite <- insert_desc_perm. now apply perm_skip.
Qed.

(** A stable sort leaves a descending list alone. *)
Lemma sort_desc_descending (l : list A) :
  descending score l -> sort_desc score l = l.
Proof.
  induction 1 as [| x | x y l Hxy Hd IH]; simpl; try reflexivity.
  simpl in IH. rewrite IH. simpl.
  apply Qltb_ge in Hxy. now rewrite Hxy.
Qed.

End Sorting.

(** ** Insertion-ordered maps and sets *)

Section Containers.
Import Merger.

Lemma map_get_None (m : Scoreboard) (k : string) :
  map_get m k = None <-> ~ In k (keys m).
Proof.
  induction m as [| [k' v] m IH]; simpl; [tauto |].
  destruct (String.eqb_spec k' k) as [-> | Hne].
  - split; [discriminate | tauto].
  - rewrite IH. tauto.
Qed.

Lemma map_get_Some_In (m : Scoreboard) (k : string) (v : Q) :
  map_get m k = Some v -> In k (keys m).
Proof.
  intros H.
  destruct (in_dec string_dec k (keys m)) as [Hin | Hn]; [exact Hin |].
  apply map_get_None in Hn. congruence.
Qed.

Lemma map_set_absent (m : Scoreboard) (k : string) (v : Q) :
  ~ In k (keys m) -> map_set m k v = m ++ [(k, v)].
Proof.
  induction m as [| [k' v'] m IH]; simpl; intros Hn; [reflexivity |].
  destruct (String.eqb_spec k' k) as [-> | Hne]; [tauto |].
  rewrite IH; tauto.
Qed.

Lemma map_set_present (m : Scoreboard) (k : string) (v : Q) :
  In k (keys m) -> keys (map_set m k v) = keys m.
Proof.
  induction m as [| [k' v'] m IH]; simpl; intros Hin; [tauto |].
  destruct (String.eqb_spec k' k) as [-> | Hne]; [reflexivity |].
  simpl. f_equal. apply IH. destruct Hin; congruence.
Qed.

Lemma keys_map_set (m : Scoreboard) (k : string) (v : Q) :
  keys (map_set m k v) = if in_dec string_dec k (keys m) then keys m
                         else keys m ++ [k].
Proof.
  destruct (in_dec string_dec k (keys m)) as [Hin | Hn].
  - now apply map_set_present.
  - rewrite map_set_absent by exact Hn. unfold keys. now rewrite map_app.
Qed.

Lemma In_keys_map_set (m : Scoreboard) (k k' : string) (v : Q) :
  In k' (keys (map_set m k v)) <-> k' = k \/ In k' (keys m).
Proof.
  rewrite keys_map_set.
  destruct (in_dec string_dec k (keys m)) as [Hin | Hn].
  - split; [tauto | intros [-> | H]; assumption].
  - rewrite in_app_iff. simpl. intuition congruence.
Qed.

Lemma NoDup_app_one {T} (l : list T) (x : T) :
  NoDup l -> ~ In x l -> NoDup (l ++ [x]).
Proof.
  intros Hl Hx. apply NoDup_rev in Hl.
  rewrite <- (rev_involutive (l ++ [x])). apply NoDup_rev.
  rewrite rev_app_distr. simpl. constructor; [| exact Hl].
  now rewrite <- in_rev.
Qed.

Lemma NoDup_keys_map_set (m : Scoreboard) (k : string) (v : Q) :
  NoDup (keys m) -> NoDup (keys (map_set m k v)).
Proof.
  intros Hm. rewrite keys_map_set.
  destruct (in_dec string_dec k (keys m)); [exact Hm |].
  now apply NoDup_app_one.
Qed.

Lemma map_get_set_same (m : Scoreboard) (k : string) (v : Q) :
  map_get (map_set m k v) k = Some v.
Proof.
  induction m as [| [k' v'] m IH]; simpl.
  - now rewrite String.eqb_refl.
  - destruct (String.eqb_spec k' k) as [-> | Hne]; simpl.
    + now rewrite String.eqb_refl.
    + destruct (String.eqb_spec k' k); [congruence | exact IH].
Qed.

Lemma map_get_set_other (m : Scoreboard) (k k' : string) (v : Q) :
  k <> k' -> map_get (map_set m k v) k' = map_get m k'.
Proof.
  intros Hne. induction m as [| [k0 v0] m IH]; simpl.
  - destruct (String.eqb_spec k k'); [congruence | reflexivity].
  - destruct (String.eqb_spec k0 k) as [-> | H0]; simpl.
    + destruct (String.eqb_spec k k'); [congruence | reflexivity].
    + now rewrite IH.
Qed.

Lemma get_or_zero_absent (m : Scoreboard) (k : string) :
  ~ In k (keys m) -> get_or_zero m k = 0.
Proof.
  intros Hn. unfold get_or_zero. apply map_get_None in Hn. now rewrite Hn.
Qed.

Lemma get_or_zero_positive (m : Scoreboard) (k : string) (v : Q) :
  map_get m k = Some v -> 0 < v -> get_or_zero m k = v.
Proof.
  intros Hg Hv. unfold get_or_zero. rewrite Hg.
  destruct (Qeq_bool v 0) eqn:E; [| reflexivity].
  apply Qeq_bool_iff in E. lra.
Qed.

(** [Set.add], iterated. *)
Lemma In_set_add (s : list string) (x y : string) :
  In y (set_add s x) <-> y = x \/ In y s.
Proof.
  unfold set_add. destruct (existsb (String.eqb x) s) eqn:E.
  - apply existsb_exists in E. destruct E as (z & Hz & Hxz).
    apply String.eqb_eq in Hxz. subst z.
    split; [tauto | intros [-> | H]; assumption].
  - rewrite in_app_iff. simpl. intuition congruence.
Qed.

Lemma NoDup_set_add (s : list string) (x : string) :
  NoDup s -> NoDup (set_add s x).
Proof.
  intros Hs. unfold set_add. destruct (existsb (String.eqb x) s) eqn:E.
  - exact Hs.
  - apply NoDup_app_one; [exact Hs |]. intros Hin.
    assert (existsb (String.eqb x) s = true); [| congruence].
    apply existsb_exists. exists x. split; [exact Hin | apply String.eqb_refl].
Qed.

Lemma In_fold_set_add (l s : list string) (y : string) :
  In y (fold_left set_add l s) <-> In y s \/ In y l.
Proof.
  revert s. induction l as [| x l IH]; intros s; simpl; [tauto |].
  rewrite IH, In_set_add. intuition congruence.
Qed.

Lemma NoDup_fold_set_add (l s : list string) :
  NoDup s -> NoDup (fold_left set_add l s).
Proof.
  revert s. induction l as [| x l IH]; intros s Hs; simpl; [exact Hs |].
  apply IH. now apply NoDup_set_add.
Qed.

End Containers.

(** ** Signal merger *)

Section MergerFacts.
Import Merger Samples.

(** *** The two position-decayed passes *)

Lemma In_keys_add_positional w i cats m k :
  In k (keys (add_positional w i cats m)) <-> In k cats \/ In k (keys m).
Proof.
  revert i m. induction cats as [| c cats IH]; intros i m; simpl; [tauto |].
  rewrite IH, In_keys_map_set. intuition congruence.
Qed.

Lemma NoDup_keys_add_positional w i cats m :
  NoDup (keys m) -> NoDup (keys (add_positional w i cats m)).
Proof.
  revert i m.
  induction cats as [| c cats IH]; intros i m Hm; simpl; [exact Hm |].
  apply IH. now apply NoDup_keys_map_set.
Qed.

Lemma add_positional_fresh w i cats m :
  NoDup cats -> (forall c, In c cats -> ~ In c (keys m)) ->
  add_positional w i cats m = m ++ positional_entries w i cats.
Proof.
  revert i m. induction cats as [| c cats IH]; intros i m Hnd Hfresh; simpl.
  - now rewrite app_nil_r.
  - inversion Hnd as [| ? ? Hc Hnd']; subst.
    assert (Hcm : ~ In c (keys m)) by (apply Hfresh; now left).
    rewrite get_or_zero_absent, map_set_absent by exact Hcm.
    rewrite IH; [now rewrite <- app_assoc | exact Hnd' |].
    intros c' Hc'. unfold keys. rewrite map_app, in_app_iff. simpl.
    intros [H | [H | []]].
    + apply (Hfresh c'); [now right | exact H].
    + congruence.
Qed.

Lemma keys_positional_entries w i cats :
  keys (positional_entries w i cats) = cats.
Proof.
  revert i. induction cats as [| c cats IH]; intros i; simpl; [reflexivity |].
  f_equal. apply IH.
Qed.

Lemma positional_entries_descending w i cats :
  0 <= w -> descending snd (positional_entries w i cats).
Proof.
  intros Hw. revert i.
  induction cats as [| c cats IH]; intros i; cbn [positional_entries].
  - constructor.
  - specialize (IH (S i)).
    destruct cats as [| c' cats]; cbn [positional_entries] in *.
    + constructor.
    + constructor; [| exact IH]. cbn [snd].
      rewrite Nat2Z.inj_succ. unfold Z.succ. rewrite inject_Z_plus.
      change (inject_Z 1) with 1.
      set (x := inject_Z (Z.of_nat i)).
      assert (H : w * (1 - (x + 1) * (1 # 10)) <= w * (1 - x * (1 # 10)));
        [| lra].
      setoid_replace (w * (1 - x * (1 # 10)))
        with (w * (1 - (x + 1) * (1 # 10)) + w * (1 # 10)) by ring.
      assert (0 <= w * (1 # 10)) by (apply Qmult_le_0_compat; lra).
      lra.
Qed.

(** *** The feedback pass *)

Lemma In_keys_feedback_step fw cat w m k :
  In k (keys m) -> In k (keys (feedback_step fw cat w m)).
Proof.
  intros Hk. unfold feedback_step.
  destruct (Qltb 0 (get_or_zero m cat)); [apply In_keys_map_set; tauto |].
  destruct (Qltb (12 # 10) w); [apply In_keys_map_set; tauto | exact Hk].
Qed.

Lemma NoDup_keys_feedback_step fw cat w m :
  NoDup (keys m) -> NoDup (keys (feedback_step fw cat w m)).
Proof.
  intros Hm. unfold feedback_step.
  destruct (Qltb 0 (get_or_zero m cat)); [now apply NoDup_keys_map_set |].
  destruct (Qltb (12 # 10) w); [now apply NoDup_keys_map_set | exact Hm].
Qed.

Lemma map_get_feedback_step_other fw cat w m k :
  cat <> k -> map_get (feedback_step fw cat w m) k = map_get m k.
Proof.
  intros Hne. unfold feedback_step.
  destruct (Qltb 0 (get_or_zero m cat)); [now apply map_get_set_other |].
  destruct (Qltb (12 # 10) w); [now apply map_get_set_other | reflexivity].
Qed.

Lemma In_keys_apply_feedback fw entries m k :
  In k (keys m) -> In k (keys (apply_feedback fw entries m)).
Proof.
  revert m. induction entries as [| [cat w] entries IH]; intros m Hk; simpl;
    [exact Hk |].
  apply IH. now apply In_keys_feedback_step.
Qed.

Lemma NoDup_keys_apply_feedback fw entries m :
  NoDup (keys m) -> NoDup (keys (apply_feedback fw entries m)).
Proof.
  revert m. induction entries as [| [cat w] entries IH]; intros m Hm; simpl;
    [exact Hm |].
  apply IH. now apply NoDup_keys_feedback_step.
Qed.

(** A category the feedback does not name keeps its entry. *)
Lemma map_get_apply_feedback_other fw entries m k :
  ~ In k (map fst entries) ->
  map_get (apply_feedback fw entries m) k = map_get m k.
Proof.
  revert m. induction entries as [| [cat w] entries IH]; intros m Hk; simpl;
    [reflexivity |].
  simpl in Hk. rewrite IH by tauto.
  apply map_get_feedback_step_other. tauto.
Qed.

(** A category the feedback names once is decided by its own turn. *)
Lemma map_get_apply_feedback_own fw entries m cat w :
  NoDup (map fst entries) -> In (cat, w) entries ->
  map_get (apply_feedback fw entries m) cat =
  map_get (feedback_step fw cat w m) cat.
Proof.
  revert m. induction entries as [| [c0 w0] entries IH]; intros m Hnd Hin;
    simpl in *; [tauto |].
  inversion Hnd as [| ? ? Hc0 Hnd']; subst.
  destruct Hin as [E | Hin].
  - injection E as -> ->. now apply map_get_apply_feedback_other.
  - assert (Hne : c0 <> cat).
    { intros ->. apply Hc0. apply (in_map fst) in Hin. exact Hin. }
    rewrite IH by assumption.
    unfold feedback_step at 1 3. unfold get_or_zero.
    rewrite (map_get_feedback_step_other fw c0 w0 m cat Hne).
    fold (get_or_zero m cat).
    destruct (Qltb 0 (get_or_zero m cat)).
    + now rewrite !map_get_set_same.
    + destruct (Qltb (12 # 10) w).
      * now rewrite !map_get_set_same.
      * now apply map_get_feedback_step_other.
Qed.

(** *** The scoreboards of [mergeSignals] *)

Lemma In_keys_accumulatedScores conv userMd fb k :
  In k (keys (accumulatedScores conv userMd fb)) <->
  In k conv \/ In k (userMdCategoriesOf userMd).
Proof.
  unfold accumulatedScores. rewrite !In_keys_add_positional. simpl. tauto.
Qed.

Lemma NoDup_keys_finalScores conv userMd fb :
  NoDup (keys (finalScores conv userMd fb)).
Proof.
  unfold finalScores, accumulatedScores.
  apply NoDup_keys_apply_feedback.
  do 2 apply NoDup_keys_add_positional. constructor.
Qed.

Lemma In_conv_keys_finalScores conv userMd fb k :
  In k conv -> In k (keys (finalScores conv userMd fb)).
Proof.
  intros Hk. unfold finalScores. apply In_keys_apply_feedback.
  apply In_keys_accumulatedScores. now left.
Qed.

Lemma finalScores_conversation_only conv :
  NoDup conv ->
  exists w, 0 <= w /\ finalScores conv None None = positional_entries w 0 conv.
Proof.
  intros Hnd. unfold finalScores, accumulatedScores.
  cbn [feedbackEntries apply_feedback userMdCategoriesOf add_positional
       userMdWeightOf].
  exists (1 - 0 - feedbackWeightOf None). split.
  - unfold feedbackWeightOf, eventCountOf. vm_compute. discriminate.
  - rewrite add_positional_fresh; [reflexivity | exact Hnd | intros c _ []].
Qed.

Lemma main_fallback {T} (l fallback : list T) :
  (l = [] -> fallback = []) ->
  (if (0 <? len (slice_to 3 l))%Z then slice_to 3 l else fallback)
  = firstn 3 l.
Proof.
  intros Hempty. destruct l as [| x l]; [now rewrite Hempty |].
  assert (E : (0 <? len (slice_to 3 (x :: l)))%Z = true).
  { apply Z.ltb_lt. unfold slice_to, len.
    change (firstn 3 (x :: l)) with (x :: firstn 2 l).
    cbn [List.length]. lia. }
  now rewrite E.
Qed.

(** *** Weights *)

Lemma feedbackWeightOf_range fb :
  0 <= feedbackWeightOf fb /\ feedbackWeightOf fb <= 3 # 10.
Proof.
  unfold feedbackWeightOf.
  set (e := inject_Z (Z.of_nat (eventCountOf fb))).
  assert (He : 0 <= e).
  { unfold e. change 0 with (inject_Z 0). rewrite <- Zle_Qle. lia. }
  destruct (Q.min_spec (3 # 10) (e * (2 # 100))) as [[Hlt E] | [Hle E]];
    cbv zeta; fold e; rewrite E; split; lra.
Qed.

Lemma userMdWeightOf_range userMd fb :
  0 <= userMdWeightOf userMd fb /\ userMdWeightOf userMd fb <= 3 # 10.
Proof.
  unfold userMdWeightOf. destruct userMd as [u |]; [| lra].
  destruct (feedbackWeightOf_range fb) as [H0 H1].
  destruct (Q.max_spec (2 # 10) ((3 # 10) - feedbackWeightOf fb * (33 # 100)))
    as [[Hlt E] | [Hle E]]; cbv zeta; rewrite E; split; lra.
Qed.

Lemma scaled_nudge_bounds (n : Z) (w : Q) :
  (-15 <= n <= 15)%Z -> 0 <= w -> w <= 3 # 10 ->
  (-15 <= Math_round (inject_Z n * (w / (3 # 10))) <= 15)%Z.
Proof.
  intros [Hlo Hhi] Hw0 Hw1.
  assert (Hx0 : inject_Z (-15) <= inject_Z n) by (now rewrite <- Zle_Qle).
  assert (Hx1 : inject_Z n <= inject_Z 15) by (now rewrite <- Zle_Qle).
  set (x := inject_Z n) in *.
  change (inject_Z (-15)) with (- (15 # 1)) in Hx0.
  change (inject_Z 15) with (15 # 1) in Hx1.
  set (f := w / (3 # 10)).
  assert (Hf : f == w * (10 # 3)) by (unfold f; field).
  assert (Hf0 : 0 <= f) by (rewrite Hf; lra).
  assert (Hf1 : f <= 1) by (rewrite Hf; lra).
  assert (A : 0 <= ((15 # 1) - x) * f) by (apply Qmult_le_0_compat; lra).
  assert (B : 0 <= (x + (15 # 1)) * f) by (apply Qmult_le_0_compat; lra).
  assert (A' : ((15 # 1) - x) * f == (15 # 1) * f - x * f) by ring.
  assert (B' : (x + (15 # 1)) * f == x * f + (15 # 1) * f) by ring.
  apply Math_round_bounds.
  - change (inject_Z (-15)) with (- (15 # 1)). lra.
  - change (inject_Z 15) with (15 # 1). lra.
Qed.

Lemma clamp_range (v : Z) : (-15 <= clamp v (-15) 15 <= 15)%Z.
Proof. unfold clamp. lia. Qed.

(** *** The claims on [mergeSignals] *)

(** C6.  Whatever the static profile and the feedback, the three dimension
    nudges returned by [mergeSignals] are integers between -15 and 15, and
    all three are zero when there is no static profile. *)
Theorem dimensionNudges_bounded conv dims userMd fb :
  let n := dimensionNudges (mergeSignals conv dims userMd fb) in
  ((-15 <= conviction n <= 15)%Z /\
   (-15 <= intuition n <= 15)%Z /\
   (-15 <= contribution n <= 15)%Z) /\
  dimensionNudges (mergeSignals conv dims None fb) =
    {| conviction := 0%Z; intuition := 0%Z; contribution := 0%Z |}.
Proof.
  cbv zeta. split; [| reflexivity].
  unfold mergeSignals. cbn [dimensionNudges conviction intuition contribution].
  destruct (userMdWeightOf_range userMd fb) as [H0 H1].
  assert (Hn : let r := match userMd with
                        | Some u => calculateDimensionNudges u
                        | None => {| conviction := 0%Z; intuition := 0%Z;
                                     contribution := 0%Z |}
                        end in
               (-15 <= conviction r <= 15)%Z /\
               (-15 <= intuition r <= 15)%Z /\
               (-15 <= contribution r <= 15)%Z).
  { destruct userMd as [u |]; cbv zeta.
    - unfold calculateDimensionNudges.
      repeat match goal with
             | |- context [let '(_, _) := ?e in _] => destruct e
             end.
      cbn [conviction intuition contribution].
      repeat split; apply clamp_range.
    - cbn. lia. }
  cbv zeta in Hn. destruct Hn as (Hc & Hi & Hk).
  repeat split; apply scaled_nudge_bounds; tauto || assumption.
Qed.

Lemma NoDup_app_disjoint {T} (l1 l2 : list T) (x : T) :
  NoDup (l1 ++ l2) -> In x l1 -> ~ In x l2.
Proof.
  induction l1 as [| y l1 IH]; simpl; intros Hnd Hin; [tauto |].
  inversion Hnd as [| ? ? Hy Hnd']; subst.
  destruct Hin as [-> | Hin]; [| now apply IH].
  intros H2. apply Hy. apply in_or_app. now right.
Qed.

Lemma NoDup_firstn_skipn {T} (n : nat) (l : list T) :
  NoDup l -> NoDup (firstn n l) /\ NoDup (skipn n l).
Proof.
  intros Hl. rewrite <- (firstn_skipn n l) in Hl. split.
  - now apply NoDup_app_remove_r in Hl.
  - now apply NoDup_app_remove_l in Hl.
Qed.

(** The categories in score order, as [mergeSignals] computes them. *)
Lemma NoDup_sortedCategories conv userMd fb :
  NoDup (map fst (sort_desc snd (finalScores conv userMd fb))).
Proof.
  apply (Permutation_NoDup (l := keys (finalScores conv userMd fb))).
  - unfold keys. apply Permutation_map. apply sort_desc_perm.
  - apply NoDup_keys_finalScores.
Qed.

(** The fallback to the raw conversation list is taken on an empty
    scoreboard only, that is, on an empty conversation list. *)
Lemma mainCategories_top3 conv dims userMd fb :
  mainCategories (mergeSignals conv dims userMd fb) =
  firstn 3 (map fst (sort_desc snd (finalScores conv userMd fb))).
Proof.
  unfold mergeSignals. cbn [mainCategories].
  set (sorted := map fst (sort_desc snd (finalScores conv userMd fb))).
  assert (Hconv : forall c, In c conv -> In c sorted).
  { intros c Hc. unfold sorted.
    apply (Permutation_in (l := keys (finalScores conv userMd fb))).
    - unfold keys. apply Permutation_map. apply sort_desc_perm.
    - now apply In_conv_keys_finalScores. }
  apply main_fallback. intros E.
  destruct conv as [| c conv]; [reflexivity |].
  specialize (Hconv c (or_introl eq_refl)). rewrite E in Hconv.
  destruct Hconv.
Qed.

(** C4.  The feedback weight [mergeSignals] works with is
    [min(0.3, eventCount * 0.02)] of the [eventCount] field of the feedback,
    and that of an event count of 0 when the feedback is null: the ranking
    behind [mainCategories] is the one computed with this weight, with the
    USER.md weight and the conversation weight derived from it.  The weight
    is 0 for no event, [eventCount * 0.02] below 15 events and 0.3 from 15
    events on, and it never decreases when the event count grows. *)
Theorem feedbackWeight_schedule (f : FeedbackData) (conv : list string)
  (dims : Dimensions Q) (userMd : option UserMdSignals) :
  let weight := fun n : nat =>
    Qmin (3 # 10) (inject_Z (Z.of_nat n) * (2 # 100)) in
  let ranking := fun (feedbackWeight : Q) (feedback : option FeedbackData) =>
    let userMdWeight :=
      match userMd with
      | Some _ => Qmax (2 # 10) ((3 # 10) - feedbackWeight * (33 # 100))
      | None => 0
      end in
    firstn 3
      (map fst
         (sort_desc snd
            (apply_feedback feedbackWeight (feedbackEntries feedback)
               (add_positional userMdWeight 0 (userMdCategoriesOf userMd)
                  (add_positional (1 - userMdWeight - feedbackWeight) 0
                     conv []))))) in
  feedbackWeightOf (Some f) == weight (eventCount f) /\
  feedbackWeightOf None == 0 /\
  mainCategories (mergeSignals conv dims userMd (Some f))
  = ranking (weight (eventCount f)) (Some f) /\
  mainCategories (mergeSignals conv dims userMd None)
  = ranking (weight 0%nat) None /\
  (eventCount f = 0%nat -> feedbackWeightOf (Some f) == 0) /\
  ((eventCount f < 15)%nat ->
   feedbackWeightOf (Some f)
   == inject_Z (Z.of_nat (eventCount f)) * (2 # 100)) /\
  ((15 <= eventCount f)%nat -> feedbackWeightOf (Some f) == 3 # 10) /\
  (forall f' : FeedbackData,
     (eventCount f <= eventCount f')%nat ->
     feedbackWeightOf (Some f) <= feedbackWeightOf (Some f')) /\
  feedbackWeightOf None <= feedbackWeightOf (Some f).
Proof.
  cbv zeta.
  assert (He : 0 <= inject_Z (Z.of_nat (eventCount f))).
  { change 0 with (inject_Z 0). rewrite <- Zle_Qle. lia. }
  split; [reflexivity |]. split; [reflexivity |].
  split; [rewrite mainCategories_top3; reflexivity |].
  split; [rewrite mainCategories_top3; reflexivity |].
  unfold feedbackWeightOf, eventCountOf. cbv zeta.
  split; [| split; [| split; [| split]]].
  - intros ->. reflexivity.
  - intros Hlt.
    assert (H : inject_Z (Z.of_nat (eventCount f)) <= inject_Z 15)
      by (rewrite <- Zle_Qle; lia).
    change (inject_Z 15) with (15 # 1) in H.
    apply Q.min_r. lra.
  - intros Hge.
    assert (H : inject_Z 15 <= inject_Z (Z.of_nat (eventCount f)))
      by (rewrite <- Zle_Qle; lia).
    change (inject_Z 15) with (15 # 1) in H.
    apply Q.min_l. lra.
  - intros f' Hle.
    assert (H : inject_Z (Z.of_nat (eventCount f)) <=
                inject_Z (Z.of_nat (eventCount f')))
      by (rewrite <- Zle_Qle; lia).
    apply Q.min_le_compat_l. lra.
  - apply Q.min_glb; [vm_compute; discriminate |].
    setoid_replace (Qmin (3 # 10) (inject_Z (Z.of_nat 0) * (2 # 100)))
      with 0 by reflexivity.
    lra.
Qed.

Lemma feedbackWeight_schedule_witness :
  feedbackWeightOf (Some twentyEvents) == 3 # 10.
Proof.
  apply (proj1 (proj2 (proj2 (proj2 (proj2 (proj2 (proj2
           (feedbackWeight_schedule twentyEvents ["AI Tools"] anyDimensions
              None)))))))).
  simpl. lia.
Defined.

(** C2, as the code has it.  Without static profile and without feedback,
    a conversation list that names no category twice comes back as
    [mainCategories] cut to its first three entries, in the same order; it
    comes back whole when it has at most three entries. *)
Theorem mainCategories_conversation_only conv dims :
  NoDup conv ->
  mainCategories (mergeSignals conv dims None None) = firstn 3 conv /\
  ((List.length conv <= 3)%nat ->
   mainCategories (mergeSignals conv dims None None) = conv).
Proof.
  intros Hnd.
  assert (H : mainCategories (mergeSignals conv dims None None)
              = firstn 3 conv).
  { rewrite mainCategories_top3.
    destruct (finalScores_conversation_only conv Hnd) as (w & Hw & ->).
    rewrite sort_desc_descending by now apply positional_entries_descending.
    fold (keys (positional_entries w 0 conv)).
    now rewrite keys_positional_entries. }
  split; [exact H |].
  intros Hlen. rewrite H. now apply firstn_all2.
Qed.

Lemma mainCategories_conversation_only_witness :
  mainCategories (mergeSignals ["AI Tools"; "Crypto"] anyDimensions None None)
  = ["AI Tools"; "Crypto"].
Proof.
  apply (mainCategories_conversation_only ["AI Tools"; "Crypto"] anyDimensions).
  - repeat constructor; simpl; intuition discriminate.
  - simpl. lia.
Defined.

(** C2 as stated fails: four distinct conversation categories, no static
    profile, no feedback, and [mainCategories] is not the list given. *)
Lemma mainCategories_conversation_only_cut :
  mainCategories (mergeSignals fourCategories anyDimensions None None)
  = ["AI Tools"; "Crypto"; "Design"] /\
  mainCategories (mergeSignals fourCategories anyDimensions None None)
  <> fourCategories.
Proof. split; [reflexivity | discriminate]. Qed.

(** The hypothesis on repetitions is needed: a category named twice adds
    up its two scores and overtakes the one named first. *)
Remark mainCategories_conversation_only_repeated :
  mainCategories
    (mergeSignals ["AI Tools"; "Crypto"; "Crypto"] anyDimensions None None)
  = ["Crypto"; "AI Tools"].
Proof. reflexivity. Qed.

(** C3, as the code has it.  [mainCategories] has at most three entries
    and no repetition, [subCategories] has at most ten entries and no
    repetition, and a category found in both is one of the interests the
    static profile declares. *)
Theorem merged_categories_shape conv dims userMd fb :
  let r := mergeSignals conv dims userMd fb in
  (List.length (mainCategories r) <= 3)%nat /\ NoDup (mainCategories r) /\
  (List.length (subCategories r) <= 10)%nat /\ NoDup (subCategories r) /\
  (forall c, In c (mainCategories r) -> In c (subCategories r) ->
             In c (userMdSubCategoriesOf userMd)).
Proof.
  cbv zeta. rewrite mainCategories_top3.
  unfold mergeSignals. cbn [subCategories]. unfold slice_to, slice_from.
  set (sorted := map fst (sort_desc snd (finalScores conv userMd fb))).
  assert (Hs : NoDup sorted) by apply NoDup_sortedCategories.
  destruct (NoDup_firstn_skipn 3 sorted Hs) as [Hmain Hrest].
  set (subSet := fold_left set_add (userMdSubCategoriesOf userMd)
                   (fold_left set_add (skipn 3 sorted) [])).
  assert (Hsub : NoDup subSet).
  { unfold subSet. do 2 apply NoDup_fold_set_add. constructor. }
  repeat split.
  - apply firstn_le_length.
  - exact Hmain.
  - apply firstn_le_length.
  - now apply (NoDup_firstn_skipn 10 subSet).
  - intros c Hm Hc.
    assert (Hc' : In c subSet).
    { rewrite <- (firstn_skipn 10 subSet). apply in_or_app. now left. }
    unfold subSet in Hc'. rewrite !In_fold_set_add in Hc'.
    destruct Hc' as [[[] | Hr] | Hi]; [| exact Hi].
    exfalso. revert Hr. apply (NoDup_app_disjoint (firstn 3 sorted)).
    + now rewrite firstn_skipn.
    + exact Hm.
Qed.

Lemma merged_categories_shape_witness :
  In "AI Tools" (userMdSubCategoriesOf (Some interestedInAiTools)).
Proof.
  apply (proj2 (proj2 (proj2 (proj2
           (merged_categories_shape ["AI Tools"] anyDimensions
              (Some interestedInAiTools) None))))).
  - left. reflexivity.
  - left. reflexivity.
Defined.

(** C3 as stated fails: a category the conversation ranks first and the
    static profile declares as an interest is in both lists. *)
Lemma main_and_sub_overlap :
  let r := mergeSignals ["AI Tools"] anyDimensions
             (Some interestedInAiTools) None in
  mainCategories r = ["AI Tools"] /\ subCategories r = ["AI Tools"] /\
  exists c, In c (mainCategories r) /\ In c (subCategories r).
Proof.
  cbv zeta. split; [reflexivity |]. split; [reflexivity |].
  exists "AI Tools". split; left; reflexivity.
Qed.

(** C5, as the code has it.  For a category named by the feedback weights:
    when the conversation and USER.md passes left it a positive score, its
    final score is that score times the multiplier; when neither the
    conversation nor the static profile names it, it enters the scoreboard
    only for a multiplier above 1.2, with score
    [feedbackWeight * (multiplier - 1)]. *)
Theorem feedback_multiplier conv userMd fb cat w :
  NoDup (map fst (feedbackEntries fb)) ->
  In (cat, w) (feedbackEntries fb) ->
  (forall s, map_get (accumulatedScores conv userMd fb) cat = Some s ->
             0 < s ->
             map_get (finalScores conv userMd fb) cat = Some (s * w)) /\
  (~ In cat conv -> ~ In cat (userMdCategoriesOf userMd) ->
   ((12 # 10) < w ->
    map_get (finalScores conv userMd fb) cat
    = Some (feedbackWeightOf fb * (w - 1))) /\
   (w <= (12 # 10) -> map_get (finalScores conv userMd fb) cat = None)).
Proof.
  intros Hnd Hin. unfold finalScores.
  rewrite (map_get_apply_feedback_own _ _ _ cat w Hnd Hin).
  set (acc := accumulatedScores conv userMd fb).
  unfold feedback_step. split.
  - intros s Hs Hpos.
    rewrite (get_or_zero_positive acc cat s Hs Hpos).
    apply Qltb_lt in Hpos. rewrite Hpos. apply map_get_set_same.
  - intros Hc Hu.
    assert (Habs : ~ In cat (keys acc)).
    { unfold acc. rewrite In_keys_accumulatedScores. tauto. }
    rewrite (get_or_zero_absent acc cat Habs).
    change (Qltb 0 0) with false. cbv iota. split.
    + intros Hw. apply Qltb_lt in Hw. rewrite Hw. apply map_get_set_same.
    + intros Hw. apply Qltb_ge in Hw. rewrite Hw. now apply map_get_None.
Qed.

Lemma feedback_multiplier_witness :
  exists s,
    map_get (accumulatedScores ["AI Tools"; "Crypto"] None (Some doubleCrypto))
            "Crypto" = Some s /\
    map_get (finalScores ["AI Tools"; "Crypto"] None (Some doubleCrypto))
            "Crypto" = Some (s * (2 # 1)).
Proof.
  eexists. split; [reflexivity |].
  apply (proj1 (feedback_multiplier ["AI Tools"; "Crypto"] None
                  (Some doubleCrypto) "Crypto" (2 # 1)
                  ltac:(repeat constructor; simpl; tauto)
                  ltac:(simpl; left; reflexivity))).
  - reflexivity.
  - reflexivity.
Defined.

(** C5 as stated fails: the twelfth conversation category is on the
    scoreboard with a score below zero, and a feedback multiplier of 0.5
    leaves that score as it is. *)
Lemma feedback_multiplier_skips_negative :
  In ("Music", 1 # 2) (feedbackEntries (Some halveMusic)) /\
  exists s s',
    map_get (accumulatedScores twelveCategories None (Some halveMusic))
            "Music" = Some s /\
    map_get (finalScores twelveCategories None (Some halveMusic))
            "Music" = Some s' /\
    s == - (1 # 10) /\ s' == - (1 # 10) /\ ~ s' == s * (1 # 2).
Proof.
  split; [left; reflexivity |].
  eexists. eexists.
  split; [vm_compute; reflexivity |].
  split; [vm_compute; reflexivity |].
  repeat split; try reflexivity. intros H. vm_compute in H. discriminate.
Qed.

End MergerFacts.

(** ** Dimension classifier *)

Section ClassifierFacts.
Import Classifier.

(** C8.  [classify] gives Cultivator whenever contribution is above 65,
    whatever the other two dimensions; otherwise the quadrant of conviction
    and intuition decides, 50 itself counting as high: Visionary
    (high, high), Optimizer (high, low), Explorer (low, high), Innovator
    (low, low).  Being a function into the five types, it gives exactly one
    type for every triple. *)
Theorem classify_rules (conviction intuition contribution : Q) :
  (65 < contribution ->
   classify conviction intuition contribution = Cultivator) /\
  (contribution <= 65 -> 50 <= conviction -> 50 <= intuition ->
   classify conviction intuition contribution = Visionary) /\
  (contribution <= 65 -> 50 <= conviction -> intuition < 50 ->
   classify conviction intuition contribution = Optimizer) /\
  (contribution <= 65 -> conviction < 50 -> 50 <= intuition ->
   classify conviction intuition contribution = Explorer) /\
  (contribution <= 65 -> conviction < 50 -> intuition < 50 ->
   classify conviction intuition contribution = Innovator) /\
  (exists! t, classify conviction intuition contribution = t) /\
  classify 75 20 10 = Optimizer /\
  classify 50 50 65 = Visionary /\
  classify 10 10 90 = Cultivator.
Proof.
  unfold classify.
  repeat match goal with |- _ /\ _ => split end;
    try reflexivity;
    try (eexists; split; [reflexivity | intros t <-; reflexivity]);
    intros;
    repeat match goal with
           | H : _ < _ |- _ =>
               first [ rewrite (proj2 (Qltb_lt _ _) H)
                     | rewrite (proj2 (Qle_bool_false _ _) H) ]; clear H
           | H : _ <= _ |- _ =>
               first [ rewrite (proj2 (Qltb_ge _ _) H)
                     | rewrite (proj2 (Qle_bool_iff _ _) H) ]; clear H
           end; reflexivity.
Qed.

Lemma classify_rules_witness : classify 75 20 10 = Optimizer.
Proof.
  apply (proj1 (proj2 (proj2 (classify_rules 75 20 10))));
    unfold Qle, Qlt; simpl; lia.
Defined.

End ClassifierFacts.

(** ** ClawHub client *)

Section ClawHubFacts.
Import ClawHub Samples.

Variable fetch_search : string -> Z -> Outcome (list ClawHubSkill).

Lemma existsb_eqb_In (a : string) (l : list string) :
  existsb (String.eqb a) l = true <-> In a l.
Proof.
  rewrite existsb_exists. split.
  - intros (x & Hx & E). apply String.eqb_eq in E. now subst.
  - intros H. exists a. split; [exact H | apply String.eqb_refl].
Qed.

Lemma fold_visit (hits : list ClawHubSkill) seen all :
  fold_left visit hits (seen, all)
  = (seen ++ map slug (kept hits seen), all ++ kept hits seen).
Proof.
  revert seen all. induction hits as [| h hits IH]; intros seen all; simpl.
  - now rewrite !app_nil_r.
  - destruct (existsb (String.eqb (slug h)) seen); [apply IH |].
    rewrite IH. simpl. now rewrite <- !app_assoc.
Qed.

Lemma fold_visit_arrays (arrays : list (list ClawHubSkill)) st :
  fold_left (fun st results => fold_left visit results st) arrays st
  = fold_left visit (List.concat arrays) st.
Proof.
  revert st. induction arrays as [| a arrays IH]; intros st; simpl;
    [reflexivity |].
  now rewrite IH, fold_left_app.
Qed.

Lemma dedupe_kept (arrays : list (list ClawHubSkill)) :
  dedupe arrays = kept (List.concat arrays) [].
Proof.
  unfold dedupe. now rewrite fold_visit_arrays, fold_visit.
Qed.

(** A hit is kept exactly when its slug was not seen before and it is the
    first hit of its slug. *)
Lemma In_kept (hits : list ClawHubSkill) (seen : list string) s :
  In s (kept hits seen) <->
  ~ In (slug s) seen /\ first_hit (slug s) hits = Some s.
Proof.
  revert seen. unfold first_hit.
  induction hits as [| h hits IH]; intros seen; simpl.
  - split; [tauto | intros [_ H]; discriminate].
  - destruct (existsb (String.eqb (slug h)) seen) eqn:E.
    + apply existsb_eqb_In in E. rewrite IH.
      destruct (String.eqb_spec (slug h) (slug s)) as [Heq | Hne].
      * rewrite <- Heq. tauto.
      * tauto.
    + assert (Hn : ~ In (slug h) seen).
      { intros H. apply existsb_eqb_In in H. congruence. }
      simpl. rewrite IH, in_app_iff. simpl.
      destruct (String.eqb_spec (slug h) (slug s)) as [Heq | Hne].
      * split.
        -- intros [-> | [H _]]; [split; [exact Hn | reflexivity] |].
           exfalso. apply H. right. left. exact Heq.
        -- intros [_ H]. left. congruence.
      * split.
        -- intros [-> | [H1 H2]]; [congruence |]. tauto.
        -- intros [H1 H2]. right. split; [| exact H2].
           intros [H | [H | []]]; [tauto | congruence].
Qed.

Lemma NoDup_kept (hits : list ClawHubSkill) (seen : list string) :
  NoDup (map slug (kept hits seen)).
Proof.
  revert seen. induction hits as [| h hits IH]; intros seen; simpl.
  - constructor.
  - destruct (existsb (String.eqb (slug h)) seen); [apply IH |].
    simpl. constructor; [| apply IH].
    rewrite in_map_iff. intros (s & Hs & Hin).
    apply In_kept in Hin. destruct Hin as [Hin _].
    apply Hin. apply in_or_app. right. left. now symmetry.
Qed.

(** C9, as the code has it.  The merged result holds each slug at most
    once; an entry is in it exactly when it is the first hit of its slug
    over the answers taken in category order, so it is kept whole, with the
    similarity score of that first hit; and every slug found is there. *)
Theorem searchMultipleCategories_first_seen categories limitPerCategory :
  let hits :=
    List.concat (searchAll fetch_search categories limitPerCategory) in
  let merged :=
    searchMultipleCategories fetch_search categories limitPerCategory in
  NoDup (map slug merged) /\
  (forall s, In s merged <-> first_hit (slug s) hits = Some s) /\
  (forall h, In h hits -> exists s, In s merged /\ slug s = slug h).
Proof.
  cbv zeta. unfold searchMultipleCategories. rewrite dedupe_kept.
  set (hits := List.concat (searchAll fetch_search categories limitPerCategory)).
  assert (Hperm : Permutation (kept hits [])
                    (sort_desc similarityScore (kept hits [])))
    by apply sort_desc_perm.
  assert (Hin : forall s, In s (sort_desc similarityScore (kept hits [])) <->
                          first_hit (slug s) hits = Some s).
  { intros s. split.
    - intros H. apply Permutation_sym in Hperm.
      apply (Permutation_in s Hperm) in H.
      apply In_kept in H. tauto.
    - intros H. apply (Permutation_in s Hperm).
      apply In_kept. split; [intros [] | exact H]. }
  repeat split.
  - apply (Permutation_NoDup (l := map slug (kept hits []))).
    + now apply Permutation_map.
    + apply NoDup_kept.
  - apply Hin.
  - apply Hin.
  - intros h Hh.
    destruct (first_hit (slug h) hits) as [s |] eqn:E.
    + unfold first_hit in E. destruct (find_some _ _ E) as [_ Hs].
      apply String.eqb_eq in Hs. exists s. split; [| exact Hs].
      apply Hin. unfold first_hit. now rewrite Hs.
    + unfold first_hit in E.
      pose proof (find_none _ _ E h Hh) as Hf. simpl in Hf.
      now rewrite String.eqb_refl in Hf.
Qed.

End ClawHubFacts.

Section ClawHubSamples.
Import ClawHub Samples.

Lemma searchMultipleCategories_first_seen_witness :
  In (hit "agent-kit" "Agent Kit" (1 # 2))
     (searchMultipleCategories twoAnswers ["AI Tools"; "Crypto"] None).
Proof.
  apply (proj1 (proj2 (searchMultipleCategories_first_seen twoAnswers
                         ["AI Tools"; "Crypto"] None))).
  reflexivity.
Defined.

(** C9 as stated fails: a skill found with score 0.5 by the first search
    and 0.9 by the second stays in the merged result with 0.5. *)
Lemma searchMultipleCategories_keeps_first_score :
  searchMultipleCategories twoAnswers ["AI Tools"; "Crypto"] None
  = [hit "gas-tracker" "Gas Tracker" (7 # 10);
     hit "agent-kit" "Agent Kit" (1 # 2)] /\
  exists s h,
    In s (searchMultipleCategories twoAnswers ["AI Tools"; "Crypto"] None) /\
    In h (List.concat (searchAll twoAnswers ["AI Tools"; "Crypto"] None)) /\
    slug h = slug s /\ similarityScore s < similarityScore h.
Proof.
  split; [reflexivity |].
  exists (hit "agent-kit" "Agent Kit" (1 # 2)),
         (hit "agent-kit" "Agent Kit" (9 # 10)).
  repeat split.
  - right. left. reflexivity.
  - right. left. reflexivity.
Qed.

End ClawHubSamples.

(** * Further properties *)

(** ** Signal collector: what [collect] always returns *)

Section CollectFacts.
Import Collector QualitySpec CollectorSummary Samples.

Variable env : Integrations.
Variable userId : string.
Variable options : option CollectOptions.

Lemma collect_conversation_initial :
  let u := collect_conversation env userId initialUserData in
  exists cm,
    collectConversationMemory env userId = Returned cm /\
    u = set_quality_conversation real
          (set_permission_conversation true
             (push_source "Conversation"
                (set_conversationMemory cm initialUserData))).
Proof.
  cbv zeta. unfold collect_conversation.
  destruct (collectConversationMemory_returns env userId) as [cm Hcm].
  rewrite Hcm. now exists cm.
Qed.

Lemma collect_twitter_sources (u : UserData) :
  q_twitter (dataQuality u) = none ->
  let u' := collect_twitter env userId options u in
  sources u' = sources u ++
               match q_twitter (dataQuality u') with
               | real => ["Twitter"]
               | none => []
               end /\
  wallet u' = wallet u /\
  (flag options skipTwitter = true ->
   twitter u' = twitter u /\ q_twitter (dataQuality u') = none /\
   p_twitter (permissions u') = p_twitter (permissions u)) /\
  (q_twitter (dataQuality u') = real ->
   exists t, twitter u' = Some t /\
             (truthy_string (bio t) = true \/ tweets t <> [])).
Proof.
  intros Hq. unfold collect_twitter.
  destruct (flag options skipTwitter); simpl.
  - rewrite Hq, app_nil_r. repeat split; auto. intros H. congruence.
  - destruct (collectTwitterData env userId) as [t | e]; simpl.
    + destruct (truthy_string (bio t)) eqn:Eb; simpl.
      * repeat split; auto; try discriminate. intros _. exists t. auto.
      * destruct (0 <? len (tweets t))%Z eqn:El; simpl.
        -- repeat split; auto; try discriminate. intros _. exists t.
           split; [reflexivity |]. right. intros E. rewrite E in El.
           discriminate.
        -- rewrite app_nil_r. repeat split; auto; discriminate.
    + rewrite app_nil_r. repeat split; auto; discriminate.
Qed.

Lemma collect_wallet_sources (u : UserData) :
  wallet u = None ->
  let u' := collect_wallet env userId options u in
  sources u' = sources u ++
               match wallet u' with Some _ => ["Wallet"] | None => [] end /\
  (wallet u' <> None <-> flag options includeWallet = true) /\
  twitter u' = twitter u /\ dataQuality u' = dataQuality u /\
  permissions u' = permissions u.
Proof.
  intros Hw. unfold collect_wallet.
  destruct (flag options includeWallet); simpl.
  - unfold collectWalletData, try_catch, bind.
    destruct (getUserWallet env userId) as [[r |] | e]; simpl;
      repeat split; auto; discriminate.
  - rewrite Hw, app_nil_r.
    repeat split; auto; try discriminate; try (intros H; congruence).
Qed.

Lemma collect_memory :
  exists u cm, collect env userId options = Returned u /\
    collectConversationMemory env userId = Returned cm /\
    conversationMemory u = Some cm.
Proof.
  unfold collect. eexists.
  destruct collect_conversation_initial as (cm & Hcm & E). cbv zeta in E.
  exists cm. split; [reflexivity |]. split; [exact Hcm |].
  set (u1 := collect_conversation env userId initialUserData) in *.
  destruct (collect_twitter_keeps_conversation env userId options u1)
    as (Tm & _).
  destruct (collect_wallet_keeps_conversation env userId options
              (collect_twitter env userId options u1)) as (Wm & _).
  rewrite Wm, Tm, E. reflexivity.
Qed.

(** X1.  The conversation is always the first collected source, of quality
    [real] and with permission, and a conversation memory is always set:
    whatever the session reader does, even when it throws.  The list of
    sources is therefore never empty. *)
Theorem collect_always_lists_conversation :
  exists u, collect env userId options = Returned u /\
    hd_error (sources u) = Some "Conversation" /\
    q_conversation (dataQuality u) = real /\
    p_conversation (permissions u) = true /\
    (exists cm, collectConversationMemory env userId = Returned cm /\
                conversationMemory u = Some cm) /\
    sources u <> [].
Proof.
  unfold collect. eexists. split; [reflexivity |].
  destruct collect_conversation_initial as (cm & Hcm & E). cbv zeta in E.
  set (u1 := collect_conversation env userId initialUserData) in *.
  destruct (collect_twitter_keeps_conversation env userId options u1)
    as (Tm & Tq & Tp & _).
  destruct (collect_twitter_sources u1) as (Ts & _); [now rewrite E |].
  set (u2 := collect_twitter env userId options u1) in *.
  destruct (collect_wallet_keeps_conversation env userId options u2)
    as (Wm & Wq & Wp & _).
  destruct (collect_wallet_sources u2) as (Ws & _).
  { destruct (collect_twitter_sources u1) as (_ & Tw & _); [now rewrite E |].
    fold u2 in Tw. rewrite Tw, E. reflexivity. }
  set (u3 := collect_wallet env userId options u2) in *.
  assert (Hs : sources u1 = ["Conversation"]) by now rewrite E.
  assert (Hhd : hd_error (sources u3) = Some "Conversation").
  { rewrite Ws, Ts, Hs. reflexivity. }
  repeat split.
  - exact Hhd.
  - rewrite Wq, Tq, E. reflexivity.
  - rewrite Wp, Tp, E. reflexivity.
  - exists cm. split; [exact Hcm |]. rewrite Wm, Tm, E. reflexivity.
  - intros H. rewrite H in Hhd. discriminate.
Qed.

(** X2.  The list of sources agrees with the other fields: it is "Conversation",
    then "Twitter" exactly when the Twitter quality is [real], then "Wallet"
    exactly when a wallet is set.  A wallet is set exactly when it was asked
    for; skipping Twitter leaves no Twitter data, quality [none] and no
    permission; and Twitter of quality [real] has a bio or a tweet. *)
Theorem collect_sources_shape :
  exists u, collect env userId options = Returned u /\
    sources u =
      "Conversation" ::
      match q_twitter (dataQuality u) with real => ["Twitter"] | none => [] end
      ++ match wallet u with Some _ => ["Wallet"] | None => [] end /\
    (wallet u <> None <-> flag options includeWallet = true) /\
    (flag options skipTwitter = true ->
     twitter u = None /\ q_twitter (dataQuality u) = none /\
     p_twitter (permissions u) = false) /\
    (q_twitter (dataQuality u) = real ->
     exists t, twitter u = Some t /\
               (truthy_string (bio t) = true \/ tweets t <> [])).
Proof.
  unfold collect. eexists. split; [reflexivity |].
  destruct collect_conversation_initial as (cm & _ & E). cbv zeta in E.
  set (u1 := collect_conversation env userId initialUserData) in *.
  destruct (collect_twitter_sources u1) as (Ts & Tw & Tskip & Treal);
    [now rewrite E |].
  set (u2 := collect_twitter env userId options u1) in *.
  destruct (collect_wallet_sources u2) as (Ws & Wiff & Wt & Wq & Wp).
  { rewrite Tw, E. reflexivity. }
  set (u3 := collect_wallet env userId options u2) in *.
  assert (Hs : sources u1 = ["Conversation"]) by now rewrite E.
  repeat split.
  - rewrite Ws, Ts, Hs, Wq. reflexivity.
  - apply Wiff.
  - apply Wiff.
  - rewrite Wt. destruct (Tskip H) as (A & _). rewrite A, E. reflexivity.
  - rewrite Wq. now destruct (Tskip H) as (_ & B & _).
  - rewrite Wp. destruct (Tskip H) as (_ & _ & C). rewrite C, E. reflexivity.
  - rewrite Wq, Wt. exact Treal.
Qed.

(** X3.  [hasSufficientData] on what [collect] returns tells whether the session
    reader returned an analysis of at least three messages: a short session
    and a failed read are both reported as insufficient. *)
Theorem collect_then_hasSufficientData :
  exists u, collect env userId options = Returned u /\
    (hasSufficientData u = true <->
     exists a, readSessionHistory env userId = Returned a /\
               (3 <= a_messageCount a)%Z).
Proof.
  destruct collect_memory as (u & cm & Hu & Hcm & Hm).
  exists u. split; [exact Hu |].
  unfold hasSufficientData. rewrite Hm.
  unfold collectConversationMemory, try_catch, bind in Hcm.
  destruct (readSessionHistory env userId) as [a | e].
  - destruct (a_messageCount a <? 3)%Z eqn:E.
    + injection Hcm as <-. simpl. split; [discriminate |].
      intros (a' & Ha' & Hge). injection Ha' as <-.
      apply Z.ltb_lt in E. lia.
    + injection Hcm as <-. simpl. rewrite E. split; [| reflexivity].
      intros _. exists a. split; [reflexivity |]. apply Z.ltb_ge in E. lia.
  - injection Hcm as <-. simpl. split; [discriminate |].
    intros (a' & Ha' & _). discriminate.
Qed.

End CollectFacts.

(** ** Data quality score and summary *)

Section QualityFacts.
Import Collector CollectorSummary.

Lemma prefix_append (p s : string) : String.prefix p (p ++ s)%string = true.
Proof.
  induction p as [| c p IH]; simpl; [now destruct s |].
  destruct (ascii_dec c c); [exact IH | congruence].
Qed.

(** The values the score can take. *)
Lemma getDataQualityScore_cases (u : UserData) :
  match conversationMemory u with
  | Some _ =>
      (getDataQualityScore u = 70 \/ 75 <= getDataQualityScore u <= 100)%Z
  | None =>
      match twitter u, q_twitter (dataQuality u) with
      | Some _, real => (10 <= getDataQualityScore u <= 15)%Z
      | _, _ => getDataQualityScore u = 0%Z
      end
  end.
Proof.
  unfold getDataQualityScore.
  destruct (conversationMemory u) as [cm |];
    destruct (twitter u) as [tw |];
    destruct (q_twitter (dataQuality u)); simpl Quality_eqb; cbv iota;
    repeat match goal with
           | |- context [if ?b then _ else _] => destruct b
           end; lia.
Qed.

(** X4.  The score has a gap: it is at most 15 without a conversation memory and
    at least 70 with one, so a Twitter source alone can never reach the
    score of the poorest conversation; and it is 0 exactly when there is
    neither a memory nor Twitter data of real quality. *)
Theorem getDataQualityScore_gap (u : UserData) :
  match conversationMemory u with
  | Some _ => (70 <= getDataQualityScore u <= 100)%Z
  | None => (0 <= getDataQualityScore u <= 15)%Z
  end /\
  (getDataQualityScore u = 0%Z <->
   conversationMemory u = None /\
   (twitter u = None \/ q_twitter (dataQuality u) = none)).
Proof.
  pose proof (getDataQualityScore_cases u) as H.
  destruct (conversationMemory u) as [cm |].
  - split; [lia |]. split; [lia | intros [E _]; discriminate].
  - destruct (twitter u) as [tw |]; destruct (q_twitter (dataQuality u));
      (split; [lia |]); split; intros; try lia; try tauto.
    destruct H0 as [_ [E | E]]; discriminate.
Qed.

(** X5.  The summary follows the presence of a conversation memory: with one it
    reads "High confidence", or "Medium confidence (70/100)" when nothing
    adds to the base score; without one it reads "Low confidence" when real
    Twitter data is there and "No data" otherwise. *)
Theorem getDataQualitySummary_levels (u : UserData) :
  let s := getDataQualitySummary u in
  match conversationMemory u with
  | Some _ =>
      (String.prefix "High confidence (" s = true /\
       (75 <= getDataQualityScore u)%Z) \/
      (String.prefix "Medium confidence (70/100) - " s = true /\
       getDataQualityScore u = 70%Z)
  | None =>
      match twitter u, q_twitter (dataQuality u) with
      | Some _, real => String.prefix "Low confidence (" s = true
      | _, _ => s = "No data - fallback to manual Q&A required"
      end
  end.
Proof.
  cbv zeta. unfold getDataQualitySummary.
  pose proof (getDataQualityScore_cases u) as H.
  destruct (conversationMemory u) as [cm |].
  - destruct H as [E | [Hlo Hhi]].
    + right. rewrite E. split; [| reflexivity].
      exact (prefix_append "Medium confidence (70/100) - "
               (Regex.join " + " (sources u))).
    + left. apply Z.leb_le in Hlo. rewrite Hlo.
      split; [| now apply Z.leb_le].
      exact (prefix_append "High confidence (" _).
  - destruct (twitter u) as [tw |]; destruct (q_twitter (dataQuality u));
      try (rewrite H; reflexivity).
    destruct H as [Hlo Hhi].
    assert (E1 : (75 <=? getDataQualityScore u)%Z = false)
      by (apply Z.leb_gt; lia).
    assert (E2 : (50 <=? getDataQualityScore u)%Z = false)
      by (apply Z.leb_gt; lia).
    assert (E3 : (0 <? getDataQualityScore u)%Z = true)
      by (apply Z.ltb_lt; lia).
    rewrite E1, E2, E3. exact (prefix_append "Low confidence (" _).
Qed.

(** X6. What [collect] returns always scores at least 70 and is never
    summarised as "Low confidence" or "No data": the branch that asks for the
    manual questions is out of reach after [collect]. *)
Theorem collect_quality_floor (env : Integrations) (userId : string)
  (options : option CollectOptions) :
  exists u, collect env userId options = Returned u /\
    (70 <= getDataQualityScore u <= 100)%Z /\
    (String.prefix "High confidence (" (getDataQualitySummary u) = true \/
     String.prefix "Medium confidence (" (getDataQualitySummary u) = true).
Proof.
  destruct (collect_memory env userId options) as (u & cm & Hu & _ & Hm).
  exists u. split; [exact Hu |].
  pose proof (getDataQualityScore_cases u) as Hs.
  rewrite Hm in Hs. split; [lia |].
  unfold getDataQualitySummary. destruct Hs as [E | [Hlo _]].
  - right. rewrite E. exact (prefix_append "Medium confidence (" _).
  - left. apply Z.leb_le in Hlo. rewrite Hlo.
    exact (prefix_append "High confidence (" _).
Qed.

End QualityFacts.

(** ** Signal merger: the weight schedule *)

Section WeightFacts.
Import Merger Samples.

Lemma feedbackWeightOf_mono fb fb' :
  (eventCountOf fb <= eventCountOf fb')%nat ->
  feedbackWeightOf fb <= feedbackWeightOf fb'.
Proof.
  intros Hle. unfold feedbackWeightOf. cbv zeta.
  apply Q.min_le_compat_l.
  assert (H : inject_Z (Z.of_nat (eventCountOf fb)) <=
              inject_Z (Z.of_nat (eventCountOf fb')))
    by (rewrite <- Zle_Qle; lia).
  lra.
Qed.

(** With a static profile the floor 0.2 of [Math.max] is never reached. *)
Lemma userMdWeightOf_present (u : UserMdSignals) fb :
  userMdWeightOf (Some u) fb == (3 # 10) - feedbackWeightOf fb * (33 # 100).
Proof.
  unfold userMdWeightOf. cbv zeta.
  destruct (feedbackWeightOf_range fb) as [H0 H1].
  apply Q.max_r. lra.
Qed.

(** X7. In [mergeSignals] the conversation always keeps the largest share:
    its weight [1 - userMdWeight - feedbackWeight] is above 0.49 and at
    most 1, and strictly greater than the USER.md weight and than the
    feedback weight, for every static profile or none and every feedback or
    none. *)
Theorem conversation_weight_dominates (userMd : option UserMdSignals)
  (fb : option FeedbackData) :
  let feedbackWeight := feedbackWeightOf fb in
  let userMdWeight := userMdWeightOf userMd fb in
  let convWeight := 1 - userMdWeight - feedbackWeight in
  (49 # 100) < convWeight /\ convWeight <= 1 /\
  userMdWeight < convWeight /\ feedbackWeight < convWeight.
Proof.
  cbv zeta. destruct (feedbackWeightOf_range fb) as [H0 H1].
  assert (Hu : userMdWeightOf userMd fb == 0 \/
               userMdWeightOf userMd fb ==
               (3 # 10) - feedbackWeightOf fb * (33 # 100)).
  { destruct userMd as [u |]; [right; apply userMdWeightOf_present |].
    left. reflexivity. }
  destruct Hu as [E | E]; rewrite E; repeat split; lra.
Qed.

(** X8. The weight of a static profile follows the [eventCount] field of
    the feedback: it is [0.3 - min(0.3, eventCount * 0.02) * 0.33], so the
    floor 0.2 of [Math.max] is never the value taken; it is 0.3 without
    feedback or with no event, stays strictly above 0.2, never grows with
    the event count and is the same from 15 events on.  Without a profile
    it is 0. *)
Theorem userMdWeight_schedule (u : UserMdSignals) (f : FeedbackData) :
  userMdWeightOf None (Some f) == 0 /\
  userMdWeightOf (Some u) None == 3 # 10 /\
  userMdWeightOf (Some u) (Some f) ==
    (3 # 10)
    - Qmin (3 # 10) (inject_Z (Z.of_nat (eventCount f)) * (2 # 100))
      * (33 # 100) /\
  (2 # 10) < userMdWeightOf (Some u) (Some f) /\
  userMdWeightOf (Some u) (Some f) <= (3 # 10) /\
  (eventCount f = 0%nat -> userMdWeightOf (Some u) (Some f) == 3 # 10) /\
  ((15 <= eventCount f)%nat ->
   userMdWeightOf (Some u) (Some f) == (3 # 10) - (3 # 10) * (33 # 100)) /\
  (forall f' : FeedbackData,
     (eventCount f <= eventCount f')%nat ->
     userMdWeightOf (Some u) (Some f') <= userMdWeightOf (Some u) (Some f)).
Proof.
  destruct (feedbackWeightOf_range (Some f)) as [H0 H1].
  pose proof (userMdWeightOf_present u (Some f)) as E.
  assert (Ef : feedbackWeightOf (Some f) =
               Qmin (3 # 10) (inject_Z (Z.of_nat (eventCount f)) * (2 # 100)))
    by reflexivity.
  split; [reflexivity |]. split; [reflexivity |].
  split; [rewrite E, Ef; reflexivity |].
  split; [rewrite E; lra |]. split; [rewrite E; lra |].
  split; [| split].
  - intros He. rewrite E, Ef, He. reflexivity.
  - intros Hge. rewrite E, Ef.
    assert (H : inject_Z 15 <= inject_Z (Z.of_nat (eventCount f)))
      by (rewrite <- Zle_Qle; lia).
    change (inject_Z 15) with (15 # 1) in H.
    rewrite Q.min_l by lra. reflexivity.
  - intros f' Hle. rewrite E, (userMdWeightOf_present u (Some f')).
    pose proof (feedbackWeightOf_mono (Some f) (Some f') Hle). lra.
Qed.

End WeightFacts.

(** ** Signal merger: dimension nudges *)

Section NudgeFacts.
Import Merger Samples.

Lemma Math_round_integer (n : Z) (x : Q) :
  x == inject_Z n -> Math_round x = n.
Proof.
  intros E.
  assert (H : (n <= Math_round x <= n)%Z) by (apply Math_round_bounds; lra).
  lia.
Qed.

Lemma scaled_nudge_range (n lo hi : Z) (w : Q) :
  (lo <= n <= hi)%Z -> (lo <= 0 <= hi)%Z -> 0 <= w -> w <= 3 # 10 ->
  (lo <= Math_round (inject_Z n * (w / (3 # 10))) <= hi)%Z.
Proof.
  intros [Hlo Hhi] [Hl0 Hh0] Hw0 Hw1.
  assert (Hx0 : inject_Z lo <= inject_Z n) by (now rewrite <- Zle_Qle).
  assert (Hx1 : inject_Z n <= inject_Z hi) by (now rewrite <- Zle_Qle).
  assert (Hl : inject_Z lo <= 0)
    by (change 0 with (inject_Z 0); now rewrite <- Zle_Qle).
  assert (Hh : 0 <= inject_Z hi)
    by (change 0 with (inject_Z 0); now rewrite <- Zle_Qle).
  set (x := inject_Z n) in *. set (a := inject_Z lo) in *.
  set (b := inject_Z hi) in *. set (f := w / (3 # 10)).
  assert (Hf : f == w * (10 # 3)) by (unfold f; field).
  assert (Hf0 : 0 <= f) by (rewrite Hf; lra).
  assert (Hf1 : f <= 1) by (rewrite Hf; lra).
  assert (A : 0 <= (b - x) * f) by (apply Qmult_le_0_compat; lra).
  assert (B : 0 <= (x - a) * f) by (apply Qmult_le_0_compat; lra).
  assert (C : 0 <= b * (1 - f)) by (apply Qmult_le_0_compat; lra).
  assert (D : 0 <= (- a) * (1 - f)) by (apply Qmult_le_0_compat; lra).
  assert (A' : (b - x) * f == b * f - x * f) by ring.
  assert (B' : (x - a) * f == x * f - a * f) by ring.
  assert (C' : b * (1 - f) == b - b * f) by ring.
  assert (D' : (- a) * (1 - f) == a * f - a) by ring.
  apply Math_round_bounds.
  - change (a <= x * f). lra.
  - change (x * f <= b). lra.
Qed.

Lemma calculateDimensionNudges_bounds (u : UserMdSignals) :
  let n := calculateDimensionNudges u in
  (-10 <= conviction n <= 15)%Z /\
  (0 <= intuition n <= 15)%Z /\
  (0 <= contribution n <= 10)%Z.
Proof.
  cbv zeta. unfold calculateDimensionNudges.
  destruct (workingStyle u) as [ws |]; [| destruct (role u) as [r |]].
  1: destruct (String.eqb ws "deep-focus");
     [| destruct (String.eqb ws "explorer" || String.eqb ws "multitasker")];
     destruct (role u) as [r |].
  all: try destruct (truthy_string r).
  all: repeat match goal with
              | |- context [if ?b then _ else _] => destruct b
              end.
  all: cbn; lia.
Qed.

(** X9.  The raw nudges of a static profile take few values: conviction is -10,
    0, 10 or 15, intuition is 0, 10 or 15, contribution is 0 or 10.  A
    deep-focus working style gives conviction 15 whatever the role says, and
    conviction is lowered only together with a raise of intuition. *)
Theorem calculateDimensionNudges_values (u : UserMdSignals) :
  let n := calculateDimensionNudges u in
  (conviction n = -10 \/ conviction n = 0 \/ conviction n = 10 \/
   conviction n = 15)%Z /\
  (intuition n = 0 \/ intuition n = 10 \/ intuition n = 15)%Z /\
  (contribution n = 0 \/ contribution n = 10)%Z /\
  (workingStyle u = Some "deep-focus" -> conviction n = 15%Z) /\
  (conviction n < 0 -> 10 <= intuition n)%Z.
Proof.
  cbv zeta. unfold calculateDimensionNudges.
  destruct (workingStyle u) as [ws |]; [| destruct (role u) as [r |]].
  1: destruct (String.eqb_spec ws "deep-focus") as [-> | Hne];
     [| destruct (String.eqb ws "explorer" || String.eqb ws "multitasker")];
     destruct (role u) as [r |].
  all: try destruct (truthy_string r).
  all: repeat match goal with
              | |- context [if ?b then _ else _] => destruct b
              end.
  all: cbn; repeat split; intros; try lia; try tauto; congruence.
Qed.

(** X10.  In the merged result a static profile never lowers intuition or
    contribution, raises contribution by at most 10, and lowers conviction
    by at most 10, whatever the feedback. *)
Theorem dimensionNudges_one_sided conv dims userMd fb :
  let n := dimensionNudges (mergeSignals conv dims userMd fb) in
  (-10 <= conviction n <= 15)%Z /\
  (0 <= intuition n <= 15)%Z /\
  (0 <= contribution n <= 10)%Z.
Proof.
  cbv zeta. unfold mergeSignals.
  cbn [dimensionNudges conviction intuition contribution].
  destruct (userMdWeightOf_range userMd fb) as [H0 H1].
  assert (Hn : let r := match userMd with
                        | Some u => calculateDimensionNudges u
                        | None => {| conviction := 0%Z; intuition := 0%Z;
                                     contribution := 0%Z |}
                        end in
               (-10 <= conviction r <= 15)%Z /\
               (0 <= intuition r <= 15)%Z /\
               (0 <= contribution r <= 10)%Z).
  { destruct userMd as [u |]; cbv zeta.
    - exact (calculateDimensionNudges_bounds u).
    - cbn. lia. }
  cbv zeta in Hn. destruct Hn as (Hc & Hi & Hk).
  split; [| split]; apply scaled_nudge_range; assumption || lia.
Qed.

(** X11.  Before any feedback event the static profile weighs its full 0.3 and
    its nudges pass through unscaled. *)
Theorem dimensionNudges_unscaled conv dims (u : UserMdSignals) fb :
  eventCountOf fb = 0%nat ->
  dimensionNudges (mergeSignals conv dims (Some u) fb)
  = calculateDimensionNudges u.
Proof.
  intros He. unfold mergeSignals. cbn [dimensionNudges].
  assert (Hw : userMdWeightOf (Some u) fb / (3 # 10) == 1).
  { unfold userMdWeightOf, feedbackWeightOf. rewrite He. reflexivity. }
  destruct (calculateDimensionNudges u) as [c i k].
  cbn [conviction intuition contribution].
  f_equal; apply Math_round_integer; rewrite Hw; ring.
Qed.

Lemma dimensionNudges_unscaled_witness :
  dimensionNudges
    (mergeSignals ["AI Tools"] anyDimensions (Some interestedInAiTools) None)
  = calculateDimensionNudges interestedInAiTools.
Proof.
  apply (dimensionNudges_unscaled ["AI Tools"] anyDimensions
           interestedInAiTools None).
  reflexivity.
Defined.

End NudgeFacts.

(** ** Sorting: the output is in descending order *)

Section SortedFacts.
Context {A : Type} (score : A -> Q).

Lemma insert_desc_descending (x : A) (l : list A) :
  descending score l -> descending score (insert_desc score x l).
Proof.
  induction 1 as [| y | y z l Hyz Hd IH]; simpl.
  - constructor.
  - destruct (Qltb (score x) (score y)) eqn:E.
    + apply Qltb_lt in E. constructor; [lra | constructor].
    + apply Qltb_ge in E. constructor; [exact E | constructor].
  - destruct (Qltb (score x) (score y)) eqn:E.
    + simpl in IH. destruct (Qltb (score x) (score z)) eqn:E'.
      * constructor; assumption.
      * apply Qltb_lt in E. constructor; [lra | exact IH].
    + apply Qltb_ge in E. constructor; [exact E |].
      constructor; assumption.
Qed.

Lemma sort_desc_sorted (l : list A) : descending score (sort_desc score l).
Proof.
  induction l as [| x l IH]; simpl; [constructor |].
  now apply insert_desc_descending.
Qed.

Lemma descending_tail (x : A) (l : list A) :
  descending score (x :: l) -> descending score l.
Proof. inversion 1; subst; [constructor | assumption]. Qed.

Lemma descending_head (x : A) (l : list A) :
  descending score (x :: l) -> forall y, In y l -> score y <= score x.
Proof.
  revert x. induction l as [| z l IH]; intros x Hd y Hy; [destruct Hy |].
  inversion Hd as [| | ? ? ? Hzx Hd']; subst.
  destruct Hy as [-> | Hy]; [exact Hzx |].
  apply Qle_trans with (score z); [now apply IH | exact Hzx].
Qed.

Lemma descending_app (l1 l2 : list A) :
  descending score (l1 ++ l2) ->
  forall x y, In x l1 -> In y l2 -> score y <= score x.
Proof.
  induction l1 as [| z l1 IH]; intros Hd x y Hx Hy; [destruct Hx |].
  simpl in Hd. destruct Hx as [-> | Hx].
  - apply (descending_head _ _ Hd). apply in_or_app. now right.
  - apply IH; try assumption. now apply descending_tail in Hd.
Qed.

End SortedFacts.

(** ** Signal merger: the ranking *)

Section RankingFacts.
Import Merger Samples.

Lemma In_map_get (m : Scoreboard) (k : string) (v : Q) :
  NoDup (keys m) -> In (k, v) m -> map_get m k = Some v.
Proof.
  induction m as [| [k' v'] m IH]; simpl; intros Hnd Hin; [destruct Hin |].
  inversion Hnd as [| ? ? Hk' Hnd']; subst.
  destruct (String.eqb_spec k' k) as [-> | Hne].
  - destruct Hin as [E | Hin]; [congruence |].
    exfalso. apply Hk'. apply (in_map fst) in Hin. exact Hin.
  - destruct Hin as [E | Hin]; [congruence | now apply IH].
Qed.

Lemma map_get_In (m : Scoreboard) (k : string) (v : Q) :
  map_get m k = Some v -> In (k, v) m.
Proof.
  induction m as [| [k' v'] m IH]; simpl; [discriminate |].
  destruct (String.eqb_spec k' k) as [-> | Hne].
  - intros E. injection E as ->. now left.
  - intros H. right. now apply IH.
Qed.

(** X12.  The three main categories are the best scored ones: no category left
    out of [mainCategories] has a final score above that of a category in
    it. *)
Theorem mainCategories_dominate conv dims userMd fb c c' s s' :
  In c (mainCategories (mergeSignals conv dims userMd fb)) ->
  ~ In c' (mainCategories (mergeSignals conv dims userMd fb)) ->
  map_get (finalScores conv userMd fb) c = Some s ->
  map_get (finalScores conv userMd fb) c' = Some s' ->
  s' <= s.
Proof.
  rewrite mainCategories_top3.
  set (final := finalScores conv userMd fb).
  set (sorted := sort_desc snd final).
  intros Hc Hc' Hs Hs'.
  assert (Hperm : Permutation final sorted) by apply sort_desc_perm.
  assert (Hnd : NoDup (keys sorted)).
  { unfold keys. apply (Permutation_NoDup (l := keys final)).
    - unfold keys. now apply Permutation_map.
    - apply NoDup_keys_finalScores. }
  assert (Hget : forall k v, map_get final k = Some v -> In (k, v) sorted).
  { intros k v H. apply (Permutation_in _ Hperm). now apply map_get_In. }
  rewrite firstn_map in Hc, Hc'.
  apply in_map_iff in Hc. destruct Hc as ([k v] & Hk & Hin). simpl in Hk.
  subst k.
  assert (Hv : v = s).
  { assert (H1 : In (c, v) sorted).
    { rewrite <- (firstn_skipn 3 sorted). apply in_or_app. now left. }
    apply (In_map_get sorted c v Hnd) in H1.
    apply Hget, (In_map_get sorted c s Hnd) in Hs. congruence. }
  subst v.
  assert (Hin' : In (c', s') (skipn 3 sorted)).
  { apply Hget in Hs'. rewrite <- (firstn_skipn 3 sorted) in Hs'.
    apply in_app_or in Hs'. destruct Hs' as [H | H]; [| exact H].
    exfalso. apply Hc'. apply in_map_iff. exists (c', s'). now split. }
  assert (Hd : descending snd (firstn 3 sorted ++ skipn 3 sorted)).
  { rewrite firstn_skipn. apply sort_desc_sorted. }
  exact (descending_app snd _ _ Hd (c, s) (c', s') Hin Hin').
Qed.

Lemma mainCategories_dominate_witness :
  0 + (1 - 0 - Qmin (3 # 10) (inject_Z 0 * (2 # 100)))
      * (1 - inject_Z 3 * (1 # 10)) <=
  0 + (1 - 0 - Qmin (3 # 10) (inject_Z 0 * (2 # 100)))
      * (1 - inject_Z 0 * (1 # 10)).
Proof.
  apply (mainCategories_dominate fourCategories anyDimensions None None
           "AI Tools" "Finance").
  - left. reflexivity.
  - simpl. intuition discriminate.
  - reflexivity.
  - reflexivity.
Defined.

End RankingFacts.

(** ** Signal merger: where the categories come from *)

Section ProvenanceFacts.
Import Merger Samples.

Lemma In_keys_feedback_step_inv fw cat w m k :
  In k (keys (feedback_step fw cat w m)) ->
  In k (keys m) \/ (k = cat /\ (12 # 10) < w).
Proof.
  unfold feedback_step.
  destruct (Qltb 0 (get_or_zero m cat)) eqn:E.
  - rewrite In_keys_map_set. intros [-> | H]; [| now left].
    left. apply Qltb_lt in E.
    destruct (in_dec string_dec cat (keys m)) as [Hin | Hn]; [exact Hin |].
    rewrite (get_or_zero_absent m cat Hn) in E. lra.
  - destruct (Qltb (12 # 10) w) eqn:E'; [| now left].
    rewrite In_keys_map_set. apply Qltb_lt in E'.
    intros [-> | H]; [right; split; [reflexivity | exact E'] | now left].
Qed.

Lemma In_keys_apply_feedback_inv fw entries m k :
  In k (keys (apply_feedback fw entries m)) ->
  In k (keys m) \/ exists w, In (k, w) entries /\ (12 # 10) < w.
Proof.
  revert m. induction entries as [| [cat w] entries IH]; intros m; simpl;
    [now left |].
  intros H. apply IH in H. destruct H as [H | (w' & Hin & Hw)].
  - apply In_keys_feedback_step_inv in H.
    destruct H as [H | [-> Hw]]; [now left |].
    right. exists w. split; [now left | exact Hw].
  - right. exists w'. split; [now right | exact Hw].
Qed.

Lemma set_add_fresh (l s : list string) :
  NoDup l -> (forall x, In x l -> ~ In x s) ->
  fold_left set_add l s = s ++ l.
Proof.
  revert s. induction l as [| x l IH]; intros s Hnd Hfresh; simpl.
  - now rewrite app_nil_r.
  - inversion Hnd as [| ? ? Hx Hnd']; subst.
    assert (E : set_add s x = s ++ [x]).
    { unfold set_add. destruct (existsb (String.eqb x) s) eqn:Ex;
        [| reflexivity].
      apply existsb_exists in Ex. destruct Ex as (y & Hy & Hxy).
      apply String.eqb_eq in Hxy. subst y.
      exfalso. apply (Hfresh x); [now left | exact Hy]. }
    rewrite E, IH; [now rewrite <- app_assoc | exact Hnd' |].
    intros y Hy. rewrite in_app_iff. simpl.
    intros [H | [H | []]].
    + apply (Hfresh y); [now right | exact H].
    + congruence.
Qed.

Lemma fold_set_add_prefix (l s : list string) :
  exists rest, fold_left set_add l s = s ++ rest.
Proof.
  revert s. induction l as [| x l IH]; intros s; simpl.
  - exists []. now rewrite app_nil_r.
  - destruct (IH (set_add s x)) as (rest & E). rewrite E.
    unfold set_add. destruct (existsb (String.eqb x) s).
    + now exists rest.
    + exists (x :: rest). now rewrite <- app_assoc.
Qed.

(** X13.  [mainCategories] holds as many categories as were scored, up to three:
    it is empty only when nothing was scored, and in particular never for a
    non-empty conversation list.  Each of its entries comes from the
    conversation list, from the categories read off the static profile, or
    from a feedback multiplier above 1.2. *)
Theorem mainCategories_provenance conv dims userMd fb :
  let main := mainCategories (mergeSignals conv dims userMd fb) in
  List.length main = Nat.min 3 (List.length (finalScores conv userMd fb)) /\
  (conv = [] \/ main <> []) /\
  (forall c, In c main ->
     In c conv \/ In c (userMdCategoriesOf userMd) \/
     exists w, In (c, w) (feedbackEntries fb) /\ (12 # 10) < w).
Proof.
  cbv zeta. rewrite mainCategories_top3.
  set (final := finalScores conv userMd fb).
  assert (Hlen : List.length (map fst (sort_desc snd final))
                 = List.length final).
  { rewrite length_map. symmetry. apply Permutation_length.
    apply sort_desc_perm. }
  split; [| split].
  - rewrite length_firstn, Hlen. reflexivity.
  - destruct conv as [| c conv]; [now left |]. right.
    pose proof (In_conv_keys_finalScores (c :: conv) userMd fb c
                  (or_introl eq_refl)) as Hc.
    fold final in Hc. intros E.
    apply (f_equal (@List.length string)) in E.
    rewrite length_firstn, Hlen in E. simpl in E.
    destruct final; [destruct Hc | simpl in E; lia].
  - intros c Hc.
    assert (Hk : In c (keys final)).
    { apply (Permutation_in (l := map fst (sort_desc snd final))).
      - unfold keys. apply Permutation_map, Permutation_sym, sort_desc_perm.
      - rewrite <- (firstn_skipn 3). apply in_or_app. left. exact Hc. }
    unfold final, finalScores in Hk.
    apply In_keys_apply_feedback_inv in Hk.
    destruct Hk as [Hk | Hk]; [| tauto].
    apply In_keys_accumulatedScores in Hk. tauto.
Qed.

(** X14.  With at most thirteen scored categories nothing the conversation named
    is lost: every conversation category is in [mainCategories] or in
    [subCategories]. *)
Theorem conversation_categories_kept conv dims userMd fb c :
  (List.length (finalScores conv userMd fb) <= 13)%nat ->
  In c conv ->
  In c (mainCategories (mergeSignals conv dims userMd fb)) \/
  In c (subCategories (mergeSignals conv dims userMd fb)).
Proof.
  intros Hlen Hc. rewrite mainCategories_top3.
  unfold mergeSignals. cbn [subCategories]. unfold slice_to, slice_from.
  set (final := finalScores conv userMd fb) in *.
  set (sorted := map fst (sort_desc snd final)).
  assert (Hs : NoDup sorted) by apply NoDup_sortedCategories.
  assert (Hin : In c sorted).
  { apply (Permutation_in (l := keys final)).
    - unfold keys. apply Permutation_map, sort_desc_perm.
    - now apply In_conv_keys_finalScores. }
  rewrite <- (firstn_skipn 3 sorted) in Hin. apply in_app_or in Hin.
  destruct Hin as [Hin | Hin]; [now left |]. right.
  destruct (NoDup_firstn_skipn 3 sorted Hs) as [_ Hrest].
  rewrite (set_add_fresh (skipn 3 sorted) []) by (auto; intros x _ []).
  rewrite app_nil_l.
  destruct (fold_set_add_prefix (userMdSubCategoriesOf userMd)
              (skipn 3 sorted)) as (rest & E).
  rewrite E, firstn_app.
  apply in_or_app. left.
  rewrite firstn_all2; [exact Hin |].
  rewrite length_skipn. unfold sorted. rewrite length_map.
  rewrite <- (Permutation_length (sort_desc_perm snd final)). lia.
Qed.

Lemma conversation_categories_kept_witness :
  In "Finance"
     (mainCategories (mergeSignals fourCategories anyDimensions None None)) \/
  In "Finance"
     (subCategories (mergeSignals fourCategories anyDimensions None None)).
Proof.
  apply (conversation_categories_kept fourCategories anyDimensions None None
           "Finance").
  - simpl. lia.
  - simpl. tauto.
Defined.

(** X15.  The feedback pass touches only the categories it names: every scored
    category stays on the scoreboard, and a category the feedback does not
    name keeps its score. *)
Theorem feedback_frame conv userMd fb c :
  (In c (keys (accumulatedScores conv userMd fb)) ->
   In c (keys (finalScores conv userMd fb))) /\
  (~ In c (map fst (feedbackEntries fb)) ->
   map_get (finalScores conv userMd fb) c
   = map_get (accumulatedScores conv userMd fb) c).
Proof.
  unfold finalScores. split.
  - apply In_keys_apply_feedback.
  - apply map_get_apply_feedback_other.
Qed.

End ProvenanceFacts.

(** ** Signal merger: categories read off the static profile *)

Section UserMdCategoryFacts.
Import Merger Categories.

Lemma add_matching_spec table text cats :
  (NoDup cats -> NoDup (add_matching table text cats)) /\
  (forall c, In c (add_matching table text cats) ->
             In c cats \/ In c (map snd table)).
Proof.
  unfold add_matching. revert cats.
  induction table as [| [re cat] table IH]; intros cats; simpl.
  - split; auto.
  - destruct (Regex.test re text); simpl.
    + destruct (IH (set_add cats cat)) as [IH1 IH2]. split.
      * intros Hnd. apply IH1. now apply NoDup_set_add.
      * intros c Hc. apply IH2 in Hc. rewrite In_set_add in Hc.
        intuition.
    + destruct (IH cats) as [IH1 IH2]. split; [exact IH1 |].
      intros c Hc. apply IH2 in Hc. tauto.
Qed.

(** X16.  The categories read off a static profile are canonical category names,
    each at most once, and never "Lifestyle": at most nine of them. *)
Theorem mapUserMdToCategories_canonical (u : UserMdSignals) :
  NoDup (mapUserMdToCategories u) /\
  incl (mapUserMdToCategories u) CANONICAL_CATEGORIES /\
  ~ In "Lifestyle" (mapUserMdToCategories u) /\
  (List.length (mapUserMdToCategories u) <= 9)%nat.
Proof.
  set (nine := ["AI Tools"; "Productivity"; "Wellness"; "Education";
                "Crypto"; "Design"; "Development"; "Marketing"; "Finance"]).
  assert (Hnd : NoDup (mapUserMdToCategories u) /\
                incl (mapUserMdToCategories u) nine).
  { unfold mapUserMdToCategories.
    set (c1 := match role u with
               | Some r => if truthy_string r
                           then add_matching ROLE_CATEGORY_MAP r []
                           else []
               | None => []
               end).
    assert (H1 : NoDup c1 /\ incl c1 nine).
    { unfold c1. destruct (role u) as [r |];
        [destruct (truthy_string r) |];
        try (split; [constructor | intros x []]).
      destruct (add_matching_spec ROLE_CATEGORY_MAP r []) as [A B].
      split; [apply A; constructor |].
      intros c Hc. apply B in Hc. destruct Hc as [[] | Hc].
      simpl in Hc. unfold nine. simpl. intuition. }
    set (c2 := match currentFocus u with
               | Some focus =>
                   add_matching FOCUS_CATEGORY_MAP (Regex.join " " focus) c1
               | None => c1
               end).
    assert (H2 : NoDup c2 /\ incl c2 nine).
    { unfold c2. destruct (currentFocus u) as [focus |]; [| exact H1].
      destruct (add_matching_spec FOCUS_CATEGORY_MAP
                  (Regex.join " " focus) c1) as [A B].
      split; [apply A; tauto |].
      intros c Hc. apply B in Hc. destruct Hc as [Hc | Hc];
        [now apply H1 |].
      simpl in Hc. unfold nine. simpl. intuition. }
    destruct (techStack u) as [tech |]; [| exact H2].
    destruct (add_matching_spec TECH_CATEGORY_MAP
                (Regex.join " " tech) c2) as [A B].
    split; [apply A; tauto |].
    intros c Hc. apply B in Hc. destruct Hc as [Hc | Hc];
      [now apply H2 |].
    simpl in Hc. unfold nine. simpl. intuition. }
  destruct Hnd as [Hnd Hincl]. repeat split.
  - exact Hnd.
  - intros c Hc. apply Hincl in Hc. unfold nine in Hc.
    unfold CANONICAL_CATEGORIES. simpl in *. intuition.
  - intros Hc. apply Hincl in Hc. unfold nine in Hc. simpl in Hc.
    intuition discriminate.
  - change 9%nat with (List.length nine).
    now apply NoDup_incl_length.
Qed.

End UserMdCategoryFacts.

(** ** Keyword tables *)

Section KeywordTables.

(** A loop that pushes the name of every table entry that passes a test. *)
Lemma fold_push_filter {K V : Type} (p : K * V -> bool) (table : list (K * V))
  (acc : list K) :
  fold_left (fun cats entry => if p entry then cats ++ [fst entry] else cats)
            table acc
  = acc ++ map fst (filter p table).
Proof.
  revert acc. induction table as [| e table IH]; intros acc; simpl.
  - now rewrite app_nil_r.
  - rewrite IH. destruct (p e); simpl; [now rewrite <- app_assoc | reflexivity].
Qed.

Lemma NoDup_map_filter {X Y : Type} (f : X -> Y) (p : X -> bool) (l : list X) :
  NoDup (map f l) -> NoDup (map f (filter p l)).
Proof.
  induction l as [| x l IH]; simpl; intros Hnd; [constructor |].
  inversion Hnd as [| ? ? Hx Hnd']; subst.
  destruct (p x); simpl; [| now apply IH].
  constructor; [| now apply IH].
  rewrite in_map_iff. intros (y & Hy & Hin). apply Hx.
  rewrite in_map_iff. exists y. split; [exact Hy |].
  apply filter_In in Hin. tauto.
Qed.

Lemma assoc_unique {K V : Type} (t : list (K * V)) (k : K) (v v' : V) :
  NoDup (map fst t) -> In (k, v) t -> In (k, v') t -> v = v'.
Proof.
  induction t as [| [k0 v0] t IH]; simpl; intros Hnd H1 H2; [destruct H1 |].
  inversion Hnd as [| ? ? Hk0 Hnd']; subst.
  destruct H1 as [E1 | H1]; destruct H2 as [E2 | H2].
  - congruence.
  - injection E1 as -> ->. exfalso. apply Hk0.
    apply (in_map fst) in H2. exact H2.
  - injection E2 as -> ->. exfalso. apply Hk0.
    apply (in_map fst) in H1. exact H1.
  - now apply IH.
Qed.

End KeywordTables.

(** ** ClawHub client: order, failures, recommendations, categories *)

Section ClawHubMoreFacts.
Import ClawHub ClawHubRecommend Categories Text Samples.

Variable fetch_search : string -> Z -> Outcome (list ClawHubSkill).

Lemma NoDup_slug_searchMultipleCategories cats lim :
  NoDup (map slug (searchMultipleCategories fetch_search cats lim)).
Proof.
  unfold searchMultipleCategories. rewrite dedupe_kept.
  eapply Permutation_NoDup; [| apply NoDup_kept].
  apply Permutation_map, sort_desc_perm.
Qed.

(** X17. The merged search result is in descending order of similarity: an
    entry never has a better scored entry after it, and the first entry has
    the best score of all. *)
Theorem searchMultipleCategories_sorted cats lim :
  let merged := searchMultipleCategories fetch_search cats lim in
  descending similarityScore merged /\
  (forall before after x y,
     merged = before ++ after -> In x before -> In y after ->
     similarityScore y <= similarityScore x) /\
  (forall best rest y,
     merged = best :: rest -> In y merged ->
     similarityScore y <= similarityScore best).
Proof.
  cbv zeta.
  assert (Hd : descending similarityScore
                 (searchMultipleCategories fetch_search cats lim))
    by apply sort_desc_sorted.
  split; [exact Hd |]. split.
  - intros before after x y E. rewrite E in Hd.
    now apply descending_app.
  - intros best rest y E Hy. rewrite E in Hd, Hy.
    destruct Hy as [<- | Hy]; [apply Qle_refl |].
    now apply (descending_head similarityScore best rest).
Qed.

Lemma searchSkills_failed q l e :
  fetch_search q l = Thrown e ->
  searchSkills fetch_search {| query := q; limit := Some l |} = [].
Proof. intros H. unfold searchSkills. simpl. now rewrite H. Qed.

(** X18.  A search that fails for one category does not disturb the others: the
    merged result is the one obtained without that category. *)
Theorem searchMultipleCategories_skips_failure cats1 q cats2 lim e :
  fetch_search q (match lim with Some l => l | None => 3%Z end) = Thrown e ->
  searchMultipleCategories fetch_search (cats1 ++ q :: cats2) lim
  = searchMultipleCategories fetch_search (cats1 ++ cats2) lim.
Proof.
  intros Hf. unfold searchMultipleCategories. rewrite !dedupe_kept.
  f_equal. f_equal. unfold searchAll. rewrite !map_app. simpl.
  rewrite (searchSkills_failed _ _ _ Hf).
  rewrite !concat_app. reflexivity.
Qed.

End ClawHubMoreFacts.

Section ClawHubMoreSamples.
Import ClawHub Samples.

Lemma searchMultipleCategories_skips_failure_witness :
  searchMultipleCategories twoAnswers (["AI Tools"] ++ "Gaming" :: ["Crypto"])
    None
  = searchMultipleCategories twoAnswers (["AI Tools"] ++ ["Crypto"]) None.
Proof.
  apply (searchMultipleCategories_skips_failure twoAnswers
           ["AI Tools"] "Gaming" ["Crypto"] None
           "HTTP 500: Internal Server Error").
  reflexivity.
Defined.

End ClawHubMoreSamples.

Section RecommendFacts.
Import ClawHub ClawHubRecommend Samples.

Variable fetch_search : string -> Z -> Outcome (list ClawHubSkill).

Lemma descending_firstn {A} (score : A -> Q) (n : nat) (l : list A) :
  descending score l -> descending score (firstn n l).
Proof.
  intros Hd. revert n.
  induction Hd as [| x | x y l Hxy Hd IH]; intros n.
  - rewrite firstn_nil. constructor.
  - destruct n as [| [| n]]; simpl; constructor.
  - destruct n as [| [| n]]; simpl; try constructor.
    + exact Hxy.
    + exact (IH (S n)).
Qed.

Lemma slice_to_int_firstn {A} (limit : Z) (l : list A) :
  exists k, slice_to_int limit l = firstn k l /\
            ((0 <= limit)%Z -> k = Z.to_nat limit).
Proof.
  unfold slice_to_int. destruct (limit <? 0)%Z eqn:E.
  - eexists. split; [reflexivity |]. apply Z.ltb_lt in E. lia.
  - eexists. split; reflexivity.
Qed.

(** X19. The recommendations hold each slug at most once, in descending order
    of similarity, and never more than [limit] of them for a non-negative
    [limit]. Each comes from the search over the main categories, or from the
    search over the first three sub-categories with a slug the main search did
    not find. When the main search already fills the limit, or there is no
    sub-category, they are the main results cut to the limit. *)
Theorem getRecommendations_shape (options : RecommendationOptions) :
  let limit := match rec_limit options with Some l => l | None => 10%Z end in
  let mainResults :=
    searchMultipleCategories fetch_search (mainCategories options)
      (Some 4%Z) in
  let subResults :=
    searchMultipleCategories fetch_search
      (firstn 3 (subCategories options)) (Some 2%Z) in
  let r := getRecommendations fetch_search options in
  NoDup (map slug r) /\
  descending similarityScore r /\
  ((0 <= limit)%Z -> (len r <= limit)%Z) /\
  (forall s, In s r ->
     In s mainResults \/
     (In s subResults /\ ~ In (slug s) (map slug mainResults))) /\
  ((limit <= len mainResults)%Z \/ subCategories options = [] ->
   r = slice_to_int limit mainResults).
Proof.
  cbv zeta. unfold getRecommendations, slice_to.
  set (limit := match rec_limit options with Some l => l | None => 10%Z end).
  set (mainResults := searchMultipleCategories fetch_search
                        (mainCategories options) (Some 4%Z)).
  set (subResults := searchMultipleCategories fetch_search
                       (firstn 3 (subCategories options)) (Some 2%Z)).
  set (unique := filter (fun s => negb (existsb (String.eqb (slug s))
                                          (map slug mainResults)))
                        subResults).
  set (all := if (len mainResults <? limit)%Z
                 && (0 <? len (subCategories options))%Z
              then mainResults ++ unique else mainResults).
  assert (Hmain : NoDup (map slug mainResults))
    by apply NoDup_slug_searchMultipleCategories.
  assert (Hsub : NoDup (map slug subResults))
    by apply NoDup_slug_searchMultipleCategories.
  assert (Huniq : forall s, In s unique ->
                    In s subResults /\ ~ In (slug s) (map slug mainResults)).
  { intros s Hs. apply filter_In in Hs. destruct Hs as [Hs Hb].
    split; [exact Hs |]. intros Hin. apply existsb_eqb_In in Hin.
    rewrite Hin in Hb. discriminate. }
  assert (Hall : NoDup (map slug all) /\
                 forall s, In s all ->
                   In s mainResults \/
                   (In s subResults /\ ~ In (slug s) (map slug mainResults))).
  { unfold all.
    destruct ((len mainResults <? limit)%Z
              && (0 <? len (subCategories options))%Z).
    - split.
      + rewrite map_app. apply NoDup_app; [exact Hmain | |].
        * now apply NoDup_map_filter.
        * intros a Ha Hu. apply in_map_iff in Hu.
          destruct Hu as (s & <- & Hs). now apply Huniq in Hs.
      + intros s Hs. apply in_app_or in Hs.
        destruct Hs as [Hs | Hs]; [now left | right; now apply Huniq].
    - split; [exact Hmain | intros s Hs; now left]. }
  destruct Hall as [Hnd Hfrom].
  destruct (slice_to_int_firstn limit (sort_desc similarityScore all))
    as (k & Ek & Hk).
  rewrite Ek.
  assert (Hperm : Permutation all (sort_desc similarityScore all))
    by apply sort_desc_perm.
  repeat split.
  - rewrite <- firstn_map. apply (NoDup_firstn_skipn k).
    apply (Permutation_NoDup (l := map slug all));
      [now apply Permutation_map | exact Hnd].
  - apply descending_firstn, sort_desc_sorted.
  - intros H0. unfold len. rewrite (Hk H0).
    pose proof (firstn_le_length (Z.to_nat limit)
                  (sort_desc similarityScore all)). lia.
  - intros s Hs. apply Hfrom.
    apply (Permutation_in s (Permutation_sym Hperm)).
    rewrite <- (firstn_skipn k). apply in_or_app. now left.
  - intros Hcond. rewrite <- Ek. f_equal.
    assert (E : all = mainResults).
    { unfold all. destruct Hcond as [Hge | He].
      - apply Z.ltb_ge in Hge. now rewrite Hge.
      - rewrite He. simpl. now rewrite andb_false_r. }
    rewrite E. apply sort_desc_descending. apply sort_desc_sorted.
Qed.

End RecommendFacts.

Section InferCategoryFacts.
Import ClawHubRecommend Categories Text Regex.

(** X20. A skill always gets a category: the canonical categories with a
    keyword in the slug or the description, each once and in the order of the
    table, and "General" alone when no keyword occurs. *)
Theorem inferCategories_shape (slug description : string) :
  let text := toLowerCase (slug ++ " " ++ description)%string in
  let r := inferCategories slug description in
  r <> [] /\ NoDup r /\
  incl r ("General" :: CANONICAL_CATEGORIES) /\
  (forall c kws, In (c, kws) CATEGORY_KEYWORDS ->
                 (In c r <-> some_included text kws = true)) /\
  (In "General" r <->
   forall c kws, In (c, kws) CATEGORY_KEYWORDS ->
                 some_included text kws = false).
Proof.
  cbv zeta. unfold inferCategories.
  set (text := toLowerCase (slug ++ " " ++ description)%string).
  rewrite fold_push_filter. rewrite app_nil_l.
  set (p := fun entry : string * list string =>
              some_included text (snd entry)).
  set (hits := map fst (filter p CATEGORY_KEYWORDS)).
  assert (Hkeys : NoDup (map fst CATEGORY_KEYWORDS)).
  { unfold CATEGORY_KEYWORDS. cbn [map fst].
    repeat (constructor; [simpl; intuition discriminate |]). constructor. }
  assert (Hnd : NoDup hits) by (now apply NoDup_map_filter).
  assert (Hcanon : incl hits CANONICAL_CATEGORIES).
  { intros c Hc. apply in_map_iff in Hc. destruct Hc as ([c' kws] & <- & H).
    apply filter_In in H. destruct H as [H _].
    apply (in_map fst) in H. exact H. }
  assert (Hiff : forall c kws, In (c, kws) CATEGORY_KEYWORDS ->
                   (In c hits <-> some_included text kws = true)).
  { intros c kws Hin. unfold hits. rewrite in_map_iff. split.
    - intros ([c' kws'] & Ec & H). simpl in Ec. subst c'.
      apply filter_In in H. destruct H as [H Hp].
      rewrite (assoc_unique _ c kws kws' Hkeys Hin H). exact Hp.
    - intros Hp. exists (c, kws). split; [reflexivity |].
      apply filter_In. split; assumption. }
  assert (Hgen : ~ In "General" hits).
  { intros H. apply Hcanon in H. simpl in H. intuition discriminate. }
  assert (Hgen' : ~ In "General" (map fst CATEGORY_KEYWORDS)).
  { simpl. intuition discriminate. }
  destruct hits as [| h hits'] eqn:Eh.
  - change (if (0 <? len (@nil string))%Z then [] else ["General"])
      with ["General"].
    split; [discriminate |].
    split; [repeat constructor; intros [] |].
    split; [intros c [<- | []]; now left |].
    split.
    + intros c kws Hin. split.
      * intros [<- | []]. exfalso. apply Hgen'.
        apply (in_map fst) in Hin. exact Hin.
      * intros Hp. apply (Hiff c kws Hin) in Hp. destruct Hp.
    + split; [| intros _; now left].
      intros _ c kws Hin.
      destruct (some_included text kws) eqn:E; [| reflexivity].
      apply (Hiff c kws Hin) in E. destruct E.
  - assert (E : (0 <? len (h :: hits'))%Z = true).
    { apply Z.ltb_lt. unfold len. cbn [List.length]. lia. }
    rewrite E.
    split; [discriminate |].
    split; [exact Hnd |].
    split; [intros c Hc; right; now apply Hcanon |].
    split; [exact Hiff |].
    split; [intros Hg; now apply Hgen in Hg |].
    intros Hall. exfalso.
    assert (Hh : In h (map fst (filter p CATEGORY_KEYWORDS))).
    { fold hits. rewrite Eh. now left. }
    apply in_map_iff in Hh. destruct Hh as ([c kws] & _ & Hf).
    apply filter_In in Hf. destruct Hf as [Hin Hp].
    unfold p in Hp. simpl in Hp. rewrite (Hall c kws Hin) in Hp.
    discriminate.
Qed.

End InferCategoryFacts.

(** ** Blocked keywords *)

Section BlockedKeywordFacts.
Import Regex Text Categories.

Lemma lower_idem (c : ascii) : lower (lower c) = lower c.
Proof. destruct c as [[] [] [] [] [] [] [] []]; reflexivity. Qed.

Lemma toLowerCase_idem (s : string) :
  toLowerCase (toLowerCase s) = toLowerCase s.
Proof.
  induction s as [| c s IH]; simpl; [reflexivity |].
  now rewrite lower_idem, IH.
Qed.

Lemma prefix_empty (s : string) : String.prefix EmptyString s = true.
Proof. now destruct s. Qed.

(** On lowered text a literal of lower case letters matches only itself. *)
Lemma matches_lit_prefix (w : string) :
  forall prev s k,
    toLowerCase w = w -> toLowerCase s = s ->
    matches (lit w) prev s k = true -> String.prefix w s = true.
Proof.
  induction w as [| c w IH]; intros prev s k Hw Hs Hm.
  - apply prefix_empty.
  - simpl in Hw. injection Hw as Hc Hw.
    simpl in Hm. destruct s as [| d s]; [discriminate |].
    simpl in Hs. injection Hs as Hd Hs.
    rewrite Hc, Hd in Hm.
    destruct (Ascii.eqb_spec c d) as [-> | Hne]; [| discriminate].
    simpl. destruct (ascii_dec d d); [| congruence].
    now apply (IH (Some d) s k).
Qed.

Lemma test_from_whole_word (w : string) :
  toLowerCase w = w ->
  forall s prev, toLowerCase s = s ->
    test_from (whole_word [w]) prev s = true -> includes s w = true.
Proof.
  intros Hw. induction s as [| d s IH]; intros prev Hs Ht.
  - simpl in Ht. rewrite orb_false_r in Ht.
    apply andb_prop in Ht. destruct Ht as [_ Ht].
    rewrite orb_false_r in Ht.
    apply matches_lit_prefix in Ht; [| assumption | reflexivity].
    cbn [includes]. now rewrite Ht.
  - cbn [test_from] in Ht. apply orb_prop in Ht.
    cbn [includes]. apply orb_true_intro.
    destruct Ht as [Ht | Ht].
    + left. cbn [whole_word any_of fold_right matches] in Ht.
      apply andb_prop in Ht. destruct Ht as [_ Ht].
      rewrite orb_false_r in Ht.
      now apply matches_lit_prefix in Ht.
    + right. simpl in Hs. injection Hs as _ Hs. now apply (IH (Some d)).
Qed.

Lemma blocked_keywords_lowered :
  forall k, In k BLOCKED_KEYWORDS -> toLowerCase k = k.
Proof.
  intros k Hk. unfold BLOCKED_KEYWORDS in Hk. simpl in Hk.
  repeat (destruct Hk as [<- | Hk]; [reflexivity |]). destruct Hk.
Qed.

(** X21. A text is blocked only when a blocked keyword occurs in it, letter
    case apart; the answer does not depend on the letter case of the text; and
    a hyphenated keyword blocks wherever it occurs, also inside a longer
    word. *)
Theorem containsBlockedKeyword_sound (text : string) :
  (containsBlockedKeyword text = true ->
   exists k, In k BLOCKED_KEYWORDS /\ includes (toLowerCase text) k = true) /\
  containsBlockedKeyword (toLowerCase text) = containsBlockedKeyword text /\
  (forall k, In k BLOCKED_KEYWORDS -> includes k "-" = true ->
             includes (toLowerCase text) k = true ->
             containsBlockedKeyword text = true).
Proof.
  unfold containsBlockedKeyword. cbv zeta. split; [| split].
  - intros H. apply existsb_exists in H. destruct H as (k & Hk & Hb).
    exists k. split; [exact Hk |].
    unfold blocked_by in Hb. destruct (includes k "-"); [exact Hb |].
    apply (test_from_whole_word k (blocked_keywords_lowered k Hk)
             (toLowerCase text) None); [apply toLowerCase_idem | exact Hb].
  - now rewrite toLowerCase_idem.
  - intros k Hk Hh Hi. apply existsb_exists. exists k.
    split; [exact Hk |]. unfold blocked_by. now rewrite Hh.
Qed.

End BlockedKeywordFacts.

(** ** USER.md parser: the working style *)

Section WorkingStyleFacts.
Import Regex Text UserMdParser Merger.

Lemma keyword_score_nonneg lower kws : (0 <= keyword_score lower kws)%Z.
Proof. unfold keyword_score, len. lia. Qed.

Lemma inferWorkingStyle_cases (body : string) :
  let lower := toLowerCase body in
  let d := keyword_score lower deepFocusKeywords in
  let e := keyword_score lower explorerKeywords in
  let m := keyword_score lower multitaskerKeywords in
  (inferWorkingStyle body = "explorer" /\ (0 < e /\ m <= e /\ d < e)%Z) \/
  (inferWorkingStyle body = "multitasker" /\ (0 < m /\ e < m /\ d < m)%Z) \/
  (inferWorkingStyle body = "deep-focus" /\
   ((0 < d /\ e <= d /\ m <= d) \/ (d = 0 /\ e = 0 /\ m = 0))%Z).
Proof.
  cbv zeta. unfold inferWorkingStyle.
  pose proof (keyword_score_nonneg (toLowerCase body) deepFocusKeywords).
  pose proof (keyword_score_nonneg (toLowerCase body) explorerKeywords).
  pose proof (keyword_score_nonneg (toLowerCase body) multitaskerKeywords).
  set (d := keyword_score (toLowerCase body) deepFocusKeywords) in *.
  set (e := keyword_score (toLowerCase body) explorerKeywords) in *.
  set (m := keyword_score (toLowerCase body) multitaskerKeywords) in *.
  destruct (e <=? d)%Z eqn:E1; destruct (m <=? d)%Z eqn:E2;
    destruct (0 <? d)%Z eqn:E3; destruct (m <=? e)%Z eqn:E4;
    destruct (0 <? e)%Z eqn:E5; destruct (0 <? m)%Z eqn:E6; simpl;
    rewrite ?Z.leb_le, ?Z.leb_gt, ?Z.ltb_lt, ?Z.ltb_ge in *;
    first [ left; split; [reflexivity | lia]
          | right; left; split; [reflexivity | lia]
          | right; right; split; [reflexivity | lia]
          | exfalso; lia ].
Qed.

(** X22.  The inferred working style is always one of the three styles: the one
    with the most keywords in the text, "deep-focus" winning a tie over
    both others and "explorer" over "multitasker"; a text without any
    keyword is "deep-focus". *)
Theorem inferWorkingStyle_winner (body : string) :
  let lower := toLowerCase body in
  let d := keyword_score lower deepFocusKeywords in
  let e := keyword_score lower explorerKeywords in
  let m := keyword_score lower multitaskerKeywords in
  let r := inferWorkingStyle body in
  (r = "deep-focus" \/ r = "explorer" \/ r = "multitasker") /\
  (r = "explorer" <-> (0 < e /\ m <= e /\ d < e)%Z) /\
  (r = "multitasker" <-> (0 < m /\ e < m /\ d < m)%Z) /\
  (r = "deep-focus" <->
   ((0 < d /\ e <= d /\ m <= d) \/ (d = 0 /\ e = 0 /\ m = 0))%Z).
Proof.
  cbv zeta. pose proof (inferWorkingStyle_cases body) as H. cbv zeta in H.
  pose proof (keyword_score_nonneg (toLowerCase body) deepFocusKeywords).
  pose proof (keyword_score_nonneg (toLowerCase body) explorerKeywords).
  pose proof (keyword_score_nonneg (toLowerCase body) multitaskerKeywords).
  destruct H as [[-> H] | [[-> H] | [-> H]]];
    (split; [tauto |]); repeat split; intros;
    try discriminate; try reflexivity; try lia.
Qed.

(** X23.  A working style that comes from [inferWorkingStyle] always moves the
    nudges: either it is "deep-focus" and conviction is raised to 15, or
    intuition is raised by at least 10 and conviction is not raised. *)
Theorem nudges_of_inferred_style (u : UserMdSignals) (body : string) :
  workingStyle u = Some (inferWorkingStyle body) ->
  let n := calculateDimensionNudges u in
  (inferWorkingStyle body = "deep-focus" /\ conviction n = 15%Z) \/
  (inferWorkingStyle body <> "deep-focus" /\
   (10 <= intuition n)%Z /\ (conviction n <= 0)%Z).
Proof.
  intros Hws. cbv zeta. unfold calculateDimensionNudges. rewrite Hws.
  pose proof (inferWorkingStyle_cases body) as H. cbv zeta in H.
  destruct H as [[-> _] | [[-> _] | [-> _]]];
    cbn [String.eqb Ascii.eqb Bool.eqb orb andb];
    (destruct (role u) as [r |]; [destruct (truthy_string r) |]);
    repeat match goal with
           | |- context [if ?b then _ else _] => destruct b
           end;
    cbn;
    first [ left; split; [reflexivity | reflexivity]
          | right; split; [discriminate | lia] ].
Qed.

Lemma nudges_of_inferred_style_witness :
  let n := calculateDimensionNudges
             {| role := None; currentFocus := None; techStack := None;
                interests := None;
                workingStyle := Some (inferWorkingStyle "curious, juggling");
                raw := None |} in
  (inferWorkingStyle "curious, juggling" = "deep-focus" /\
   conviction n = 15%Z) \/
  (inferWorkingStyle "curious, juggling" <> "deep-focus" /\
   (10 <= intuition n)%Z /\ (conviction n <= 0)%Z).
Proof.
  apply (nudges_of_inferred_style
           {| role := None; currentFocus := None; techStack := None;
              interests := None;
              workingStyle := Some (inferWorkingStyle "curious, juggling");
              raw := None |} "curious, juggling").
  reflexivity.
Defined.

End WorkingStyleFacts.

(** ** Mission personalization *)

Section MissionFacts.
Import Regex Text Missions.

Lemma signal_count_bounds (text : string) (signals : list string) (z : Z) :
  (z <= fold_left
          (fun score signal =>
             if includes text signal then (score + 1)%Z else score)
          signals z <= z + len signals)%Z.
Proof.
  revert z. unfold len.
  induction signals as [| s signals IH]; intros z; cbn [fold_left List.length].
  - lia.
  - rewrite Nat2Z.inj_succ.
    destruct (includes text s).
    + specialize (IH (z + 1)%Z). lia.
    + specialize (IH z). lia.
Qed.

Lemma detect_signals_eq (contextLower : string) :
  detect_signals contextLower =
  map fst (filter (fun entry => some_included contextLower (snd entry))
                  signal_keywords).
Proof. unfold detect_signals. now rewrite fold_push_filter. Qed.

Lemma detect_signals_length (contextLower : string) :
  NoDup (detect_signals contextLower) /\
  (len (detect_signals contextLower) <= 5)%Z.
Proof.
  rewrite detect_signals_eq. split.
  - apply NoDup_map_filter. unfold signal_keywords. cbn [map fst].
    repeat (constructor; [simpl; intuition discriminate |]). constructor.
  - unfold len. rewrite length_map.
    pose proof (filter_length_le
                  (fun entry => some_included contextLower (snd entry))
                  signal_keywords) as H.
    simpl List.length in H at 2. lia.
Qed.

(** X24.  The relevance score of a mission counts the signals found in its text
    and adds 2 for a social mission when the "social" signal is present: it
    lies between 0 and the number of signals plus 2, hence never above 7
    for the signals detected from a context. *)
Theorem scoreMission_bounds (mission : Mission) (signals : list string)
  (contextLower : string) :
  (0 <= scoreMission mission signals <= len signals + 2)%Z /\
  (scoreMission mission (detect_signals contextLower) <= 7)%Z /\
  (missionType mission <> Some "social_mission" ->
   scoreMission mission signals <= len signals)%Z.
Proof.
  assert (H : forall sigs,
             (0 <= scoreMission mission sigs <= len sigs + 2)%Z /\
             (missionType mission <> Some "social_mission" ->
              scoreMission mission sigs <= len sigs)%Z).
  { intros sigs. unfold scoreMission. cbv zeta.
    remember (toLowerCase
                (title mission ++ " " ++
                 match description mission with
                 | Some d => d
                 | None => EmptyString
                 end)%string) as text eqn:Et.
    pose proof (signal_count_bounds text sigs 0) as Hb.
    remember (fold_left
                (fun score signal =>
                   if includes text signal then (score + 1)%Z else score)
                sigs 0%Z) as base eqn:Eb.
    destruct (missionType mission) as [t |].
    - destruct (String.eqb_spec t "social_mission") as [-> | Hne].
      + destruct (existsb (String.eqb "social") sigs); cbn [andb];
          (split; [lia |]); intros Hc; congruence.
      + cbn [andb]. split; [lia | intros _; lia].
    - cbn [andb]. split; [lia | intros _; lia]. }
  split; [apply H |]. split; [| apply H].
  destruct (H (detect_signals contextLower)) as [Hb _].
  destruct (detect_signals_length contextLower) as [_ Hl]. lia.
Qed.

(** X25.  Personalization only reorders: the result is a permutation of the
    missions given.  Without a context, with an empty one, or with one that
    holds no keyword, the missions come back as they are; otherwise they
    come back in descending order of relevance to the detected signals. *)
Theorem personalizeMissions_reorders (missions : list Mission)
  (context : option string) :
  Permutation missions (personalizeMissions missions context) /\
  (context = None \/ context = Some EmptyString \/
   (exists c, context = Some c /\ detect_signals (toLowerCase c) = []) ->
   personalizeMissions missions context = missions) /\
  (forall c, context = Some c -> c <> EmptyString ->
             detect_signals (toLowerCase c) <> [] ->
             descending
               (fun m => inject_Z
                           (scoreMission m (detect_signals (toLowerCase c))))
               (personalizeMissions missions context)).
Proof.
  unfold personalizeMissions. split; [| split].
  - destruct context as [c |]; [| reflexivity].
    destruct (negb (truthy_string c) || (len missions =? 0)%Z);
      [reflexivity |].
    destruct (len (detect_signals (toLowerCase c)) =? 0)%Z; [reflexivity |].
    apply sort_desc_perm.
  - intros [-> | [-> | (c & -> & E)]]; try reflexivity.
    rewrite E. simpl.
    now destruct (negb (truthy_string c) || (len missions =? 0)%Z).
  - intros c -> Hc Hs.
    destruct c as [| a c]; [congruence |]. cbn [truthy_string negb orb].
    destruct (len missions =? 0)%Z eqn:El.
    + apply Z.eqb_eq in El. destruct missions; [constructor |].
      unfold len in El. simpl in El. lia.
    + destruct (detect_signals (toLowerCase (String a c))) as [| s sigs] eqn:E;
        [congruence |].
      change (len (s :: sigs) =? 0)%Z with false. cbv iota.
      apply sort_desc_sorted.
Qed.

End MissionFacts.

(** ** Signal collector: Twitter and wallet details *)

Section CollectDetailFacts.
Import Collector Samples.

Variable env : Integrations.
Variable userId : string.
Variable options : option CollectOptions.

(** X26.  The wallet that [collect] stores is an address and nothing more: its
    token, NFT, transaction, contract and protocol lists are empty, and the
    address is the stored one, or empty when no wallet is stored or the
    storage fails. *)
Theorem collect_wallet_address_only :
  exists u, collect env userId options = Returned u /\
    forall w, wallet u = Some w ->
      tokens w = [] /\ nfts w = [] /\ transactions w = [] /\
      contracts w = [] /\ defiProtocols w = [] /\
      (address w = EmptyString \/
       exists r, getUserWallet env userId = Returned (Some r) /\
                 address w = walletAddress r).
Proof.
  unfold collect. eexists. split; [reflexivity |].
  set (u2 := collect_twitter env userId options
               (collect_conversation env userId initialUserData)).
  assert (Hw2 : wallet u2 = None).
  { destruct (collect_conversation_initial env userId) as (cm & _ & E).
    cbv zeta in E.
    destruct (collect_twitter_sources env userId options
                (collect_conversation env userId initialUserData))
      as (_ & Tw & _); [now rewrite E |].
    fold u2 in Tw. rewrite Tw, E. reflexivity. }
  intros w. unfold collect_wallet.
  destruct (flag options includeWallet); [| rewrite Hw2; discriminate].
  unfold collectWalletData, try_catch, bind.
  destruct (getUserWallet env userId) as [[r |] | e]; simpl;
    intros E; injection E as <-; simpl; repeat split; auto.
  right. now exists r.
Qed.

(** X27.  A Twitter profile that cannot be fetched is not an error of [collect]:
    the Twitter field holds the empty data, its quality is [none],
    "Twitter" is not among the sources, and the permission stays granted. *)
Theorem collect_twitter_failure (e : string) :
  fetchTwitterProfile env userId = Thrown e ->
  flag options skipTwitter = false ->
  exists u, collect env userId options = Returned u /\
    twitter u = Some emptyTwitterData /\
    q_twitter (dataQuality u) = none /\
    p_twitter (permissions u) = true /\
    ~ In "Twitter" (sources u).
Proof.
  intros Hf Hskip. unfold collect. eexists. split; [reflexivity |].
  destruct (collect_conversation_initial env userId) as (cm & _ & E).
  cbv zeta in E.
  set (u1 := collect_conversation env userId initialUserData) in *.
  assert (H2 : let u2 := collect_twitter env userId options u1 in
               twitter u2 = Some emptyTwitterData /\
               q_twitter (dataQuality u2) = none /\
               p_twitter (permissions u2) = true /\
               sources u2 = ["Conversation"] /\ wallet u2 = None).
  { cbv zeta. unfold collect_twitter. rewrite Hskip. simpl.
    unfold collectTwitterData, try_catch, bind. rewrite Hf. simpl.
    rewrite E. simpl. repeat split; reflexivity. }
  cbv zeta in H2. destruct H2 as (Ht & Hq & Hp & Hs & Hw).
  set (u2 := collect_twitter env userId options u1) in *.
  destruct (collect_wallet_sources env userId options u2 Hw)
    as (Ws & _ & Wt & Wq & Wp).
  rewrite Wt, Wq, Wp. repeat split; try assumption.
  rewrite Ws, Hs. intros Hin. simpl in Hin.
  destruct Hin as [Hin | Hin]; [discriminate |].
  destruct (wallet (collect_wallet env userId options u2));
    simpl in Hin; intuition discriminate.
Qed.

End CollectDetailFacts.

Section CollectDetailSamples.
Import Collector Samples.

Lemma collect_twitter_failure_witness :
  exists u, collect failingTwitter "user-1" None = Returned u /\
    twitter u = Some emptyTwitterData /\
    q_twitter (dataQuality u) = none /\
    p_twitter (permissions u) = true /\
    ~ In "Twitter" (sources u).
Proof.
  apply (collect_twitter_failure failingTwitter "user-1" None
           "bird CLI not found").
  - reflexivity.
  - reflexivity.
Defined.

End CollectDetailSamples.

(** ** Signal merger: the sub-categories *)

Section SubCategoryFacts.
Import Merger.

(** X28.  Every sub-category is a scored category that did not make it into
    [mainCategories], or an interest the static profile declares; without a
    static profile and with at most three scored categories there is no
    sub-category at all. *)
Theorem subCategories_provenance conv dims userMd fb :
  let r := mergeSignals conv dims userMd fb in
  (forall c, In c (subCategories r) ->
     (In c (keys (finalScores conv userMd fb)) /\
      ~ In c (mainCategories r)) \/
     In c (userMdSubCategoriesOf userMd)) /\
  (userMd = None ->
   (List.length (finalScores conv userMd fb) <= 3)%nat ->
   subCategories r = []).
Proof.
  cbv zeta. rewrite mainCategories_top3.
  unfold mergeSignals. cbn [subCategories]. unfold slice_to, slice_from.
  set (final := finalScores conv userMd fb).
  set (sorted := map fst (sort_desc snd final)).
  assert (Hs : NoDup sorted) by apply NoDup_sortedCategories.
  assert (Hperm : Permutation (keys final) sorted).
  { unfold keys. apply Permutation_map, sort_desc_perm. }
  split.
  - intros c Hc.
    assert (Hc' : In c (fold_left set_add (userMdSubCategoriesOf userMd)
                          (fold_left set_add (skipn 3 sorted) []))).
    { rewrite <- (firstn_skipn 10). apply in_or_app. left. exact Hc. }
    rewrite !In_fold_set_add in Hc'.
    destruct Hc' as [[[] | Hr] | Hi]; [left | now right].
    split.
    + apply (Permutation_in c (Permutation_sym Hperm)).
      rewrite <- (firstn_skipn 3 sorted). apply in_or_app. now right.
    + intros Hm. revert Hr.
      apply (NoDup_app_disjoint (firstn 3 sorted)); [| exact Hm].
      now rewrite firstn_skipn.
  - intros -> Hlen. simpl userMdSubCategoriesOf. cbn [fold_left].
    rewrite skipn_all2; [reflexivity |].
    unfold sorted. rewrite length_map.
    rewrite <- (Permutation_length (sort_desc_perm snd final)).
    exact Hlen.
Qed.

End SubCategoryFacts.
